(** * sturdins: strapdown mechanization, simulation driver and least squares

    A shallow embedding of the inertial strapdown integrator
    ([src/strapdown.cpp]), of the main loop of the simulation driver
    ([tests/test_sim_ins.cpp]) and of the Gauss-Newton solver declared in
    [include/sturdins/least-squares.hpp].

    Numbers: a C++ [double] is idealised as a real number ([R] of the
    Standard Library), so that the algebraic content of the mechanization
    (unit norm after renormalisation, equality of closed forms, fixed
    points) can be stated exactly.  Division in [R] is total ([x / 0 = 0]);
    wherever a statement is about divisors, the code is run a second time in
    an error monad whose division fails on a zero divisor.  The [int] loop
    counter of the driver is a [Z] with C++ truncating remainder and two's
    complement bitwise NOT. *)

From Stdlib Require Import Reals Lra Lia ZArith List Bool.
From HB Require structures.
From mathcomp Require boot order algebra.
Import ListNotations.
Set Warnings "-notation-overridden,-ambiguous-paths,-notation-incompatible-prefix,-rewrite-rw".

(** ** Eigen: fixed-size vectors and matrices of doubles *)

Module Eigen.
Local Open Scope R_scope.

Record Vector3d : Type := V3 { x0 : R; x1 : R; x2 : R }.
Record Vector4d : Type := V4 { q0 : R; q1 : R; q2 : R; q3 : R }.
Record Matrix3d : Type := M3 { row0 : Vector3d; row1 : Vector3d; row2 : Vector3d }.
Record Matrix4d : Type := M4 { r0 : Vector4d; r1 : Vector4d; r2 : Vector4d; r3 : Vector4d }.

(** [Eigen::Vector3d::Zero()] *)
Definition Zero3 : Vector3d := V3 0 0 0.

(** [v(i) = x] *)
Definition set0 (v : Vector3d) (x : R) : Vector3d := V3 x (x1 v) (x2 v).
Definition set1 (v : Vector3d) (x : R) : Vector3d := V3 (x0 v) x (x2 v).
Definition set2 (v : Vector3d) (x : R) : Vector3d := V3 (x0 v) (x1 v) x.

(** [u + v], [u - v], [a * v], [v * a] *)
Definition vadd (u v : Vector3d) : Vector3d :=
  V3 (x0 u + x0 v) (x1 u + x1 v) (x2 u + x2 v).
Definition vsub (u v : Vector3d) : Vector3d :=
  V3 (x0 u - x0 v) (x1 u - x1 v) (x2 u - x2 v).
Definition smul (a : R) (v : Vector3d) : Vector3d :=
  V3 (a * x0 v) (a * x1 v) (a * x2 v).
Definition vmuls (v : Vector3d) (a : R) : Vector3d :=
  V3 (x0 v * a) (x1 v * a) (x2 v * a).

Definition dot3 (u v : Vector3d) : R := x0 u * x0 v + x1 u * x1 v + x2 u * x2 v.

(** [v.norm()] *)
Definition norm3 (v : Vector3d) : R := sqrt (dot3 v v).

(** [C.transpose()] and [C * v] *)
Definition transpose (C : Matrix3d) : Matrix3d :=
  M3 (V3 (x0 (row0 C)) (x0 (row1 C)) (x0 (row2 C)))
     (V3 (x1 (row0 C)) (x1 (row1 C)) (x1 (row2 C)))
     (V3 (x2 (row0 C)) (x2 (row1 C)) (x2 (row2 C))).
Definition mulv3 (C : Matrix3d) (v : Vector3d) : Vector3d :=
  V3 (dot3 (row0 C) v) (dot3 (row1 C) v) (dot3 (row2 C) v).

Definition dot4 (p q : Vector4d) : R :=
  q0 p * q0 q + q1 p * q1 q + q2 p * q2 q + q3 p * q3 q.
Definition norm4 (q : Vector4d) : R := sqrt (dot4 q q).

(** [A * q] for a 4x4 matrix and [q / a] (coefficient-wise quotient) *)
Definition mulv4 (A : Matrix4d) (q : Vector4d) : Vector4d :=
  V4 (dot4 (r0 A) q) (dot4 (r1 A) q) (dot4 (r2 A) q) (dot4 (r3 A) q).
Definition divs4 (q : Vector4d) (a : R) : Vector4d :=
  V4 (q0 q / a) (q1 q / a) (q2 q / a) (q3 q / a).

End Eigen.

(** ** navtools: the constants and attitude conversions the integrator uses

    [navtools] is a separate library; its WGS84 constants and its
    attitude conversions are taken as parameters of the development. *)

Module navtools.
Import Eigen.

Record Constants : Type := mkConstants {
  WGS84_E2 : R;      (* first eccentricity squared *)
  WGS84_R0 : R;      (* equatorial radius *)
  WGS84_RP : R;      (* polar radius *)
  WGS84_OMEGA : R;   (* Earth rotation rate *)
  WGS84_MU : R;      (* gravitational constant *)
  WGS84_F : R        (* flattening *)
}.

Record Attitude : Type := mkAttitude {
  euler2quat : Vector3d -> Vector4d;
  quat2dcm : Vector4d -> Matrix3d;
  dcm2quat : Matrix3d -> Vector4d
}.

End navtools.

(** ** sturdins::Strapdown *)

Module sturdins.
Import Eigen navtools.
Local Open Scope R_scope.

Record Strapdown : Type := mkStrapdown {
  phi_ : R;
  lam_ : R;
  h_ : R;
  vn_ : R;
  ve_ : R;
  vd_ : R;
  q_b_l_ : Vector4d;
  C_b_l_ : Matrix3d;
  X1ME2_ : R;
  g_ : Vector3d;
  w_en_n_ : Vector3d;
  w_ie_n_ : Vector3d;
  wR0sqRpMu_ : R;
  sL_ : R;
  cL_ : R;
  tL_ : R;
  sLsq_ : R;
  Re_ : R;
  Rn_ : R;
  He_ : R;
  Hn_ : R;
  g0_ : R
}.

Definition set_phi_ (s : Strapdown) (x : R) : Strapdown :=
  {| phi_ := x; lam_ := lam_ s; h_ := h_ s; vn_ := vn_ s; ve_ := ve_ s; vd_ := vd_ s;
     q_b_l_ := q_b_l_ s; C_b_l_ := C_b_l_ s; X1ME2_ := X1ME2_ s; g_ := g_ s;
     w_en_n_ := w_en_n_ s; w_ie_n_ := w_ie_n_ s; wR0sqRpMu_ := wR0sqRpMu_ s; sL_ := sL_ s;
     cL_ := cL_ s; tL_ := tL_ s; sLsq_ := sLsq_ s; Re_ := Re_ s; Rn_ := Rn_ s;
     He_ := He_ s; Hn_ := Hn_ s; g0_ := g0_ s |}.
Definition set_lam_ (s : Strapdown) (x : R) : Strapdown :=
  {| phi_ := phi_ s; lam_ := x; h_ := h_ s; vn_ := vn_ s; ve_ := ve_ s; vd_ := vd_ s;
     q_b_l_ := q_b_l_ s; C_b_l_ := C_b_l_ s; X1ME2_ := X1ME2_ s; g_ := g_ s;
     w_en_n_ := w_en_n_ s; w_ie_n_ := w_ie_n_ s; wR0sqRpMu_ := wR0sqRpMu_ s; sL_ := sL_ s;
     cL_ := cL_ s; tL_ := tL_ s; sLsq_ := sLsq_ s; Re_ := Re_ s; Rn_ := Rn_ s;
     He_ := He_ s; Hn_ := Hn_ s; g0_ := g0_ s |}.
Definition set_h_ (s : Strapdown) (x : R) : Strapdown :=
  {| phi_ := phi_ s; lam_ := lam_ s; h_ := x; vn_ := vn_ s; ve_ := ve_ s; vd_ := vd_ s;
     q_b_l_ := q_b_l_ s; C_b_l_ := C_b_l_ s; X1ME2_ := X1ME2_ s; g_ := g_ s;
     w_en_n_ := w_en_n_ s; w_ie_n_ := w_ie_n_ s; wR0sqRpMu_ := wR0sqRpMu_ s; sL_ := sL_ s;
     cL_ := cL_ s; tL_ := tL_ s; sLsq_ := sLsq_ s; Re_ := Re_ s; Rn_ := Rn_ s;
     He_ := He_ s; Hn_ := Hn_ s; g0_ := g0_ s |}.
Definition set_vn_ (s : Strapdown) (x : R) : Strapdown :=
  {| phi_ := phi_ s; lam_ := lam_ s; h_ := h_ s; vn_ := x; ve_ := ve_ s; vd_ := vd_ s;
     q_b_l_ := q_b_l_ s; C_b_l_ := C_b_l_ s; X1ME2_ := X1ME2_ s; g_ := g_ s;
     w_en_n_ := w_en_n_ s; w_ie_n_ := w_ie_n_ s; wR0sqRpMu_ := wR0sqRpMu_ s; sL_ := sL_ s;
     cL_ := cL_ s; tL_ := tL_ s; sLsq_ := sLsq_ s; Re_ := Re_ s; Rn_ := Rn_ s;
     He_ := He_ s; Hn_ := Hn_ s; g0_ := g0_ s |}.
Definition set_ve_ (s : Strapdown) (x : R) : Strapdown :=
  {| phi_ := phi_ s; lam_ := lam_ s; h_ := h_ s; vn_ := vn_ s; ve_ := x; vd_ := vd_ s;
     q_b_l_ := q_b_l_ s; C_b_l_ := C_b_l_ s; X1ME2_ := X1ME2_ s; g_ := g_ s;
     w_en_n_ := w_en_n_ s; w_ie_n_ := w_ie_n_ s; wR0sqRpMu_ := wR0sqRpMu_ s; sL_ := sL_ s;
     cL_ := cL_ s; tL_ := tL_ s; sLsq_ := sLsq_ s; Re_ := Re_ s; Rn_ := Rn_ s;
     He_ := He_ s; Hn_ := Hn_ s; g0_ := g0_ s |}.
Definition set_vd_ (s : Strapdown) (x : R) : Strapdown :=
  {| phi_ := phi_ s; lam_ := lam_ s; h_ := h_ s; vn_ := vn_ s; ve_ := ve_ s; vd_ := x;
     q_b_l_ := q_b_l_ s; C_b_l_ := C_b_l_ s; X1ME2_ := X1ME2_ s; g_ := g_ s;
     w_en_n_ := w_en_n_ s; w_ie_n_ := w_ie_n_ s; wR0sqRpMu_ := wR0sqRpMu_ s; sL_ := sL_ s;
     cL_ := cL_ s; tL_ := tL_ s; sLsq_ := sLsq_ s; Re_ := Re_ s; Rn_ := Rn_ s;
     He_ := He_ s; Hn_ := Hn_ s; g0_ := g0_ s |}.
Definition set_q_b_l_ (s : Strapdown) (x : Vector4d) : Strapdown :=
  {| phi_ := phi_ s; lam_ := lam_ s; h_ := h_ s; vn_ := vn_ s; ve_ := ve_ s; vd_ := vd_ s;
     q_b_l_ := x; C_b_l_ := C_b_l_ s; X1ME2_ := X1ME2_ s; g_ := g_ s; w_en_n_ := w_en_n_ s;
     w_ie_n_ := w_ie_n_ s; wR0sqRpMu_ := wR0sqRpMu_ s; sL_ := sL_ s; cL_ := cL_ s;
     tL_ := tL_ s; sLsq_ := sLsq_ s; Re_ := Re_ s; Rn_ := Rn_ s; He_ := He_ s;
     Hn_ := Hn_ s; g0_ := g0_ s |}.
Definition set_C_b_l_ (s : Strapdown) (x : Matrix3d) : Strapdown :=
  {| phi_ := phi_ s; lam_ := lam_ s; h_ := h_ s; vn_ := vn_ s; ve_ := ve_ s; vd_ := vd_ s;
     q_b_l_ := q_b_l_ s; C_b_l_ := x; X1ME2_ := X1ME2_ s; g_ := g_ s; w_en_n_ := w_en_n_ s;
     w_ie_n_ := w_ie_n_ s; wR0sqRpMu_ := wR0sqRpMu_ s; sL_ := sL_ s; cL_ := cL_ s;
     tL_ := tL_ s; sLsq_ := sLsq_ s; Re_ := Re_ s; Rn_ := Rn_ s; He_ := He_ s;
     Hn_ := Hn_ s; g0_ := g0_ s |}.
Definition set_X1ME2_ (s : Strapdown) (x : R) : Strapdown :=
  {| phi_ := phi_ s; lam_ := lam_ s; h_ := h_ s; vn_ := vn_ s; ve_ := ve_ s; vd_ := vd_ s;
     q_b_l_ := q_b_l_ s; C_b_l_ := C_b_l_ s; X1ME2_ := x; g_ := g_ s; w_en_n_ := w_en_n_ s;
     w_ie_n_ := w_ie_n_ s; wR0sqRpMu_ := wR0sqRpMu_ s; sL_ := sL_ s; cL_ := cL_ s;
     tL_ := tL_ s; sLsq_ := sLsq_ s; Re_ := Re_ s; Rn_ := Rn_ s; He_ := He_ s;
     Hn_ := Hn_ s; g0_ := g0_ s |}.
Definition set_g_ (s : Strapdown) (x : Vector3d) : Strapdown :=
  {| phi_ := phi_ s; lam_ := lam_ s; h_ := h_ s; vn_ := vn_ s; ve_ := ve_ s; vd_ := vd_ s;
     q_b_l_ := q_b_l_ s; C_b_l_ := C_b_l_ s; X1ME2_ := X1ME2_ s; g_ := x;
     w_en_n_ := w_en_n_ s; w_ie_n_ := w_ie_n_ s; wR0sqRpMu_ := wR0sqRpMu_ s; sL_ := sL_ s;
     cL_ := cL_ s; tL_ := tL_ s; sLsq_ := sLsq_ s; Re_ := Re_ s; Rn_ := Rn_ s;
     He_ := He_ s; Hn_ := Hn_ s; g0_ := g0_ s |}.
Definition set_w_en_n_ (s : Strapdown) (x : Vector3d) : Strapdown :=
  {| phi_ := phi_ s; lam_ := lam_ s; h_ := h_ s; vn_ := vn_ s; ve_ := ve_ s; vd_ := vd_ s;
     q_b_l_ := q_b_l_ s; C_b_l_ := C_b_l_ s; X1ME2_ := X1ME2_ s; g_ := g_ s; w_en_n_ := x;
     w_ie_n_ := w_ie_n_ s; wR0sqRpMu_ := wR0sqRpMu_ s; sL_ := sL_ s; cL_ := cL_ s;
     tL_ := tL_ s; sLsq_ := sLsq_ s; Re_ := Re_ s; Rn_ := Rn_ s; He_ := He_ s;
     Hn_ := Hn_ s; g0_ := g0_ s |}.
Definition set_w_ie_n_ (s : Strapdown) (x : Vector3d) : Strapdown :=
  {| phi_ := phi_ s; lam_ := lam_ s; h_ := h_ s; vn_ := vn_ s; ve_ := ve_ s; vd_ := vd_ s;
     q_b_l_ := q_b_l_ s; C_b_l_ := C_b_l_ s; X1ME2_ := X1ME2_ s; g_ := g_ s;
     w_en_n_ := w_en_n_ s; w_ie_n_ := x; wR0sqRpMu_ := wR0sqRpMu_ s; sL_ := sL_ s;
     cL_ := cL_ s; tL_ := tL_ s; sLsq_ := sLsq_ s; Re_ := Re_ s; Rn_ := Rn_ s;
     He_ := He_ s; Hn_ := Hn_ s; g0_ := g0_ s |}.
Definition set_wR0sqRpMu_ (s : Strapdown) (x : R) : Strapdown :=
  {| phi_ := phi_ s; lam_ := lam_ s; h_ := h_ s; vn_ := vn_ s; ve_ := ve_ s; vd_ := vd_ s;
     q_b_l_ := q_b_l_ s; C_b_l_ := C_b_l_ s; X1ME2_ := X1ME2_ s; g_ := g_ s;
     w_en_n_ := w_en_n_ s; w_ie_n_ := w_ie_n_ s; wR0sqRpMu_ := x; sL_ := sL_ s;
     cL_ := cL_ s; tL_ := tL_ s; sLsq_ := sLsq_ s; Re_ := Re_ s; Rn_ := Rn_ s;
     He_ := He_ s; Hn_ := Hn_ s; g0_ := g0_ s |}.
Definition set_sL_ (s : Strapdown) (x : R) : Strapdown :=
  {| phi_ := phi_ s; lam_ := lam_ s; h_ := h_ s; vn_ := vn_ s; ve_ := ve_ s; vd_ := vd_ s;
     q_b_l_ := q_b_l_ s; C_b_l_ := C_b_l_ s; X1ME2_ := X1ME2_ s; g_ := g_ s;
     w_en_n_ := w_en_n_ s; w_ie_n_ := w_ie_n_ s; wR0sqRpMu_ := wR0sqRpMu_ s; sL_ := x;
     cL_ := cL_ s; tL_ := tL_ s; sLsq_ := sLsq_ s; Re_ := Re_ s; Rn_ := Rn_ s;
     He_ := He_ s; Hn_ := Hn_ s; g0_ := g0_ s |}.
Definition set_cL_ (s : Strapdown) (x : R) : Strapdown :=
  {| phi_ := phi_ s; lam_ := lam_ s; h_ := h_ s; vn_ := vn_ s; ve_ := ve_ s; vd_ := vd_ s;
     q_b_l_ := q_b_l_ s; C_b_l_ := C_b_l_ s; X1ME2_ := X1ME2_ s; g_ := g_ s;
     w_en_n_ := w_en_n_ s; w_ie_n_ := w_ie_n_ s; wR0sqRpMu_ := wR0sqRpMu_ s; sL_ := sL_ s;
     cL_ := x; tL_ := tL_ s; sLsq_ := sLsq_ s; Re_ := Re_ s; Rn_ := Rn_ s; He_ := He_ s;
     Hn_ := Hn_ s; g0_ := g0_ s |}.
Definition set_tL_ (s : Strapdown) (x : R) : Strapdown :=
  {| phi_ := phi_ s; lam_ := lam_ s; h_ := h_ s; vn_ := vn_ s; ve_ := ve_ s; vd_ := vd_ s;
     q_b_l_ := q_b_l_ s; C_b_l_ := C_b_l_ s; X1ME2_ := X1ME2_ s; g_ := g_ s;
     w_en_n_ := w_en_n_ s; w_ie_n_ := w_ie_n_ s; wR0sqRpMu_ := wR0sqRpMu_ s; sL_ := sL_ s;
     cL_ := cL_ s; tL_ := x; sLsq_ := sLsq_ s; Re_ := Re_ s; Rn_ := Rn_ s; He_ := He_ s;
     Hn_ := Hn_ s; g0_ := g0_ s |}.
Definition set_sLsq_ (s : Strapdown) (x : R) : Strapdown :=
  {| phi_ := phi_ s; lam_ := lam_ s; h_ := h_ s; vn_ := vn_ s; ve_ := ve_ s; vd_ := vd_ s;
     q_b_l_ := q_b_l_ s; C_b_l_ := C_b_l_ s; X1ME2_ := X1ME2_ s; g_ := g_ s;
     w_en_n_ := w_en_n_ s; w_ie_n_ := w_ie_n_ s; wR0sqRpMu_ := wR0sqRpMu_ s; sL_ := sL_ s;
     cL_ := cL_ s; tL_ := tL_ s; sLsq_ := x; Re_ := Re_ s; Rn_ := Rn_ s; He_ := He_ s;
     Hn_ := Hn_ s; g0_ := g0_ s |}.
Definition set_Re_ (s : Strapdown) (x : R) : Strapdown :=
  {| phi_ := phi_ s; lam_ := lam_ s; h_ := h_ s; vn_ := vn_ s; ve_ := ve_ s; vd_ := vd_ s;
     q_b_l_ := q_b_l_ s; C_b_l_ := C_b_l_ s; X1ME2_ := X1ME2_ s; g_ := g_ s;
     w_en_n_ := w_en_n_ s; w_ie_n_ := w_ie_n_ s; wR0sqRpMu_ := wR0sqRpMu_ s; sL_ := sL_ s;
     cL_ := cL_ s; tL_ := tL_ s; sLsq_ := sLsq_ s; Re_ := x; Rn_ := Rn_ s; He_ := He_ s;
     Hn_ := Hn_ s; g0_ := g0_ s |}.
Definition set_Rn_ (s : Strapdown) (x : R) : Strapdown :=
  {| phi_ := phi_ s; lam_ := lam_ s; h_ := h_ s; vn_ := vn_ s; ve_ := ve_ s; vd_ := vd_ s;
     q_b_l_ := q_b_l_ s; C_b_l_ := C_b_l_ s; X1ME2_ := X1ME2_ s; g_ := g_ s;
     w_en_n_ := w_en_n_ s; w_ie_n_ := w_ie_n_ s; wR0sqRpMu_ := wR0sqRpMu_ s; sL_ := sL_ s;
     cL_ := cL_ s; tL_ := tL_ s; sLsq_ := sLsq_ s; Re_ := Re_ s; Rn_ := x; He_ := He_ s;
     Hn_ := Hn_ s; g0_ := g0_ s |}.
Definition set_He_ (s : Strapdown) (x : R) : Strapdown :=
  {| phi_ := phi_ s; lam_ := lam_ s; h_ := h_ s; vn_ := vn_ s; ve_ := ve_ s; vd_ := vd_ s;
     q_b_l_ := q_b_l_ s; C_b_l_ := C_b_l_ s; X1ME2_ := X1ME2_ s; g_ := g_ s;
     w_en_n_ := w_en_n_ s; w_ie_n_ := w_ie_n_ s; wR0sqRpMu_ := wR0sqRpMu_ s; sL_ := sL_ s;
     cL_ := cL_ s; tL_ := tL_ s; sLsq_ := sLsq_ s; Re_ := Re_ s; Rn_ := Rn_ s; He_ := x;
     Hn_ := Hn_ s; g0_ := g0_ s |}.
Definition set_Hn_ (s : Strapdown) (x : R) : Strapdown :=
  {| phi_ := phi_ s; lam_ := lam_ s; h_ := h_ s; vn_ := vn_ s; ve_ := ve_ s; vd_ := vd_ s;
     q_b_l_ := q_b_l_ s; C_b_l_ := C_b_l_ s; X1ME2_ := X1ME2_ s; g_ := g_ s;
     w_en_n_ := w_en_n_ s; w_ie_n_ := w_ie_n_ s; wR0sqRpMu_ := wR0sqRpMu_ s; sL_ := sL_ s;
     cL_ := cL_ s; tL_ := tL_ s; sLsq_ := sLsq_ s; Re_ := Re_ s; Rn_ := Rn_ s;
     He_ := He_ s; Hn_ := x; g0_ := g0_ s |}.
Definition set_g0_ (s : Strapdown) (x : R) : Strapdown :=
  {| phi_ := phi_ s; lam_ := lam_ s; h_ := h_ s; vn_ := vn_ s; ve_ := ve_ s; vd_ := vd_ s;
     q_b_l_ := q_b_l_ s; C_b_l_ := C_b_l_ s; X1ME2_ := X1ME2_ s; g_ := g_ s;
     w_en_n_ := w_en_n_ s; w_ie_n_ := w_ie_n_ s; wR0sqRpMu_ := wR0sqRpMu_ s; sL_ := sL_ s;
     cL_ := cL_ s; tL_ := tL_ s; sLsq_ := sLsq_ s; Re_ := Re_ s; Rn_ := Rn_ s;
     He_ := He_ s; Hn_ := Hn_ s; g0_ := x |}.

Section Strapdown.
Context (K : Constants) (A : Attitude).

(** [Strapdown::Strapdown()]: [raw] is the storage the object is built in;
    the members the initialiser list does not mention keep its contents. *)
Definition Strapdown_default (raw : Strapdown) : Strapdown :=
  let s := set_X1ME2_ raw (1 - WGS84_E2 K) in
  let s := set_g_ s Zero3 in
  let s := set_w_en_n_ s Zero3 in
  let s := set_w_ie_n_ s Zero3 in
  set_wR0sqRpMu_ s
    (WGS84_OMEGA K * WGS84_OMEGA K * WGS84_R0 K * WGS84_R0 K * WGS84_RP K / WGS84_MU K).

(** [Strapdown::Strapdown(lat, lon, alt, veln, vele, veld, roll, pitch, yaw)] *)
Definition Strapdown_init (raw : Strapdown)
    (lat lon alt veln vele veld roll pitch yaw : R) : Strapdown :=
  let s := set_phi_ raw lat in
  let s := set_lam_ s lon in
  let s := set_h_ s alt in
  let s := set_vn_ s veln in
  let s := set_ve_ s vele in
  let s := set_vd_ s veld in
  let s := set_X1ME2_ s (1 - WGS84_E2 K) in
  let s := set_g_ s Zero3 in
  let s := set_w_en_n_ s Zero3 in
  let s := set_w_ie_n_ s Zero3 in
  let s := set_wR0sqRpMu_ s
    (WGS84_OMEGA K * WGS84_OMEGA K * WGS84_R0 K * WGS84_R0 K * WGS84_RP K / WGS84_MU K) in
  let rpy := V3 roll pitch yaw in
  let s := set_q_b_l_ s (euler2quat A rpy) in
  set_C_b_l_ s (quat2dcm A (q_b_l_ s)).

Definition SetPosition (s : Strapdown) (lat lon alt : R) : Strapdown :=
  let s := set_phi_ s lat in
  let s := set_lam_ s lon in
  set_h_ s alt.

Definition SetVelocity (s : Strapdown) (veln vele veld : R) : Strapdown :=
  let s := set_vn_ s veln in
  let s := set_ve_ s vele in
  set_vd_ s veld.

(** [SetAttitude(roll, pitch, yaw)] *)
Definition SetAttitude (s : Strapdown) (roll pitch yaw : R) : Strapdown :=
  let rpy := V3 roll pitch yaw in
  let s := set_q_b_l_ s (euler2quat A rpy) in
  set_C_b_l_ s (quat2dcm A (q_b_l_ s)).

(** [SetAttitude(const Eigen::Matrix3d &C)] *)
Definition SetAttitudeDcm (s : Strapdown) (C : Matrix3d) : Strapdown :=
  let s := set_C_b_l_ s C in
  set_q_b_l_ s (dcm2quat A (C_b_l_ s)).

Definition GravityVector (s : Strapdown) : Strapdown :=
  let hR0sq := h_ s / WGS84_R0 K in
  let hR0sq := hR0sq * hR0sq in
  let s := set_g_ s (set0 (g_ s) (-8.08e-9 * h_ s * sin (2.0 * phi_ s))) in
  set_g_ s (set2 (g_ s)
    (g0_ s * (1.0 -
              (2.0 * h_ s / WGS84_R0 K) *
                (1.0 + WGS84_F K * (1.0 - 2.0 * sLsq_ s) + wR0sqRpMu_ s) +
              3.0 * hR0sq))).

Definition EarthRateVector (s : Strapdown) : Strapdown :=
  let s := set_w_ie_n_ s (set0 (w_ie_n_ s) (WGS84_OMEGA K * cL_ s)) in
  set_w_ie_n_ s (set2 (w_ie_n_ s) (WGS84_OMEGA K * sL_ s)).

Definition TransportRateVector (s : Strapdown) : Strapdown :=
  let s := set_w_en_n_ s (set0 (w_en_n_ s) (ve_ s / He_ s)) in
  let s := set_w_en_n_ s (set1 (w_en_n_ s) (- vn_ s / Hn_ s)) in
  set_w_en_n_ s (set2 (w_en_n_ s) (- x0 (w_en_n_ s) * tL_ s)).

(** The 4x4 matrix [qdot] built from [cgamma] and the scaled [psi]. *)
Definition qdot_matrix (cgamma : R) (psi : Vector3d) : Matrix4d :=
  M4 (V4 cgamma (- x0 psi) (- x1 psi) (- x2 psi))
     (V4 (x0 psi) cgamma (x2 psi) (- x1 psi))
     (V4 (x1 psi) (- x2 psi) cgamma (x0 psi))
     (V4 (x2 psi) (x1 psi) (- x0 psi) cgamma).

Definition Mechanize (s : Strapdown) (wb fb : Vector3d) (dt : R) : Strapdown :=
  (* Sine functions of latitude *)
  let s := set_sL_ s (sin (phi_ s)) in
  let s := set_cL_ s (cos (phi_ s)) in
  let s := set_tL_ s (sL_ s / cL_ s) in
  let s := set_sLsq_ s (sL_ s * sL_ s) in
  (* Radii of curvature *)
  let t := 1.0 - WGS84_E2 K * sLsq_ s in
  let sqt := sqrt t in
  let s := set_Re_ s (WGS84_R0 K / sqt) in
  let s := set_Rn_ s (WGS84_R0 K * X1ME2_ s / (t * t / sqt)) in
  let s := set_He_ s (Re_ s + h_ s) in
  let s := set_Hn_ s (Rn_ s + h_ s) in
  (* Gravity and coriolis *)
  let s := set_g0_ s (9.7803253359 * ((1.0 + 0.001931853 * sLsq_ s) / sqt)) in
  let s := GravityVector s in
  let s := EarthRateVector s in
  let s := TransportRateVector s in
  let we := vadd (w_ie_n_ s) (smul 2.0 (w_en_n_ s)) in
  (* --- Attitude Integration --- *)
  let psi :=
    vmuls (vsub wb (mulv3 (transpose (C_b_l_ s)) (vadd (w_ie_n_ s) (w_en_n_ s)))) dt in
  let gamma := 0.5 * norm3 psi in
  let cgamma := cos gamma in
  let psi :=
    if Rlt_dec gamma 1e-5 then vmuls psi 0.5
    else let sgamma := sin gamma in vmuls psi (0.5 * sgamma / gamma) in
  let qdot := qdot_matrix cgamma psi in
  let s := set_q_b_l_ s (mulv4 qdot (q_b_l_ s)) in
  let s := set_q_b_l_ s (divs4 (q_b_l_ s) (norm4 (q_b_l_ s))) in
  (* --- Velocity Integration --- *)
  let fn := mulv3 (C_b_l_ s) fb in
  let dv_n := (x0 fn + x0 (g_ s) - (x1 we * vd_ s - x2 we * ve_ s)) * dt in
  let dv_e := (x1 fn + x1 (g_ s) - (x0 we * vd_ s - x2 we * vn_ s)) * dt in
  let dv_d := (x2 fn + x2 (g_ s) - (x0 we * ve_ s - x1 we * vn_ s)) * dt in
  (* --- Position Integration --- *)
  let s := set_phi_ s (phi_ s + (vn_ s + 0.5 * dv_n) / Hn_ s * dt) in
  let s := set_lam_ s (lam_ s + (ve_ s + 0.5 * dv_e) / (He_ s * cL_ s) * dt) in
  let s := set_h_ s (h_ s - (vd_ s + 0.5 * dv_d) * dt) in
  (* Save integration result *)
  let s := set_C_b_l_ s (quat2dcm A (q_b_l_ s)) in
  let s := set_vn_ s (vn_ s + dv_n) in
  let s := set_ve_ s (ve_ s + dv_e) in
  set_vd_ s (vd_ s + dv_d).

(** *** The same code with checked divisions

    Every [/] of the source is run through [safe_div], which fails on a
    zero divisor; [q / a] on a vector is one division by the scalar [a]. *)

Definition safe_div (a b : R) : option R :=
  if Req_dec_T b 0 then None else Some (a / b).

Definition safe_divs4 (q : Vector4d) (a : R) : option Vector4d :=
  if Req_dec_T a 0 then None else Some (divs4 q a).

Definition bind {X Y : Type} (m : option X) (k : X -> option Y) : option Y :=
  match m with
  | Some x => k x
  | None => None
  end.

Local Notation "x <- m ;; k" := (bind m (fun x => k))
  (at level 61, m at next level, right associativity).

Definition GravityVector_checked (s : Strapdown) : option Strapdown :=
  hR0sq <- safe_div (h_ s) (WGS84_R0 K) ;;
  let hR0sq := hR0sq * hR0sq in
  let s := set_g_ s (set0 (g_ s) (-8.08e-9 * h_ s * sin (2.0 * phi_ s))) in
  d <- safe_div (2.0 * h_ s) (WGS84_R0 K) ;;
  Some (set_g_ s (set2 (g_ s)
    (g0_ s * (1.0 -
              d * (1.0 + WGS84_F K * (1.0 - 2.0 * sLsq_ s) + wR0sqRpMu_ s) +
              3.0 * hR0sq)))).

Definition TransportRateVector_checked (s : Strapdown) : option Strapdown :=
  w0 <- safe_div (ve_ s) (He_ s) ;;
  let s := set_w_en_n_ s (set0 (w_en_n_ s) w0) in
  w1 <- safe_div (- vn_ s) (Hn_ s) ;;
  let s := set_w_en_n_ s (set1 (w_en_n_ s) w1) in
  Some (set_w_en_n_ s (set2 (w_en_n_ s) (- x0 (w_en_n_ s) * tL_ s))).

Definition Mechanize_checked (s : Strapdown) (wb fb : Vector3d) (dt : R)
    : option Strapdown :=
  let s := set_sL_ s (sin (phi_ s)) in
  let s := set_cL_ s (cos (phi_ s)) in
  tL <- safe_div (sL_ s) (cL_ s) ;;
  let s := set_tL_ s tL in
  let s := set_sLsq_ s (sL_ s * sL_ s) in
  let t := 1.0 - WGS84_E2 K * sLsq_ s in
  let sqt := sqrt t in
  Re <- safe_div (WGS84_R0 K) sqt ;;
  let s := set_Re_ s Re in
  ttsqt <- safe_div (t * t) sqt ;;
  Rn <- safe_div (WGS84_R0 K * X1ME2_ s) ttsqt ;;
  let s := set_Rn_ s Rn in
  let s := set_He_ s (Re_ s + h_ s) in
  let s := set_Hn_ s (Rn_ s + h_ s) in
  g0r <- safe_div (1.0 + 0.001931853 * sLsq_ s) sqt ;;
  let s := set_g0_ s (9.7803253359 * g0r) in
  s <- GravityVector_checked s ;;
  let s := EarthRateVector s in
  s <- TransportRateVector_checked s ;;
  let we := vadd (w_ie_n_ s) (smul 2.0 (w_en_n_ s)) in
  let psi :=
    vmuls (vsub wb (mulv3 (transpose (C_b_l_ s)) (vadd (w_ie_n_ s) (w_en_n_ s)))) dt in
  let gamma := 0.5 * norm3 psi in
  let cgamma := cos gamma in
  psi <- (if Rlt_dec gamma 1e-5 then Some (vmuls psi 0.5)
          else let sgamma := sin gamma in
               k <- safe_div (0.5 * sgamma) gamma ;; Some (vmuls psi k)) ;;
  let qdot := qdot_matrix cgamma psi in
  let s := set_q_b_l_ s (mulv4 qdot (q_b_l_ s)) in
  qn <- safe_divs4 (q_b_l_ s) (norm4 (q_b_l_ s)) ;;
  let s := set_q_b_l_ s qn in
  let fn := mulv3 (C_b_l_ s) fb in
  let dv_n := (x0 fn + x0 (g_ s) - (x1 we * vd_ s - x2 we * ve_ s)) * dt in
  let dv_e := (x1 fn + x1 (g_ s) - (x0 we * vd_ s - x2 we * vn_ s)) * dt in
  let dv_d := (x2 fn + x2 (g_ s) - (x0 we * ve_ s - x1 we * vn_ s)) * dt in
  dphi <- safe_div (vn_ s + 0.5 * dv_n) (Hn_ s) ;;
  let s := set_phi_ s (phi_ s + dphi * dt) in
  dlam <- safe_div (ve_ s + 0.5 * dv_e) (He_ s * cL_ s) ;;
  let s := set_lam_ s (lam_ s + dlam * dt) in
  let s := set_h_ s (h_ s - (vd_ s + 0.5 * dv_d) * dt) in
  let s := set_C_b_l_ s (quat2dcm A (q_b_l_ s)) in
  let s := set_vn_ s (vn_ s + dv_n) in
  let s := set_ve_ s (ve_ s + dv_e) in
  Some (set_vd_ s (vd_ s + dv_d)).

(** *** States a caller can build through the public operations *)

Inductive reachable : Strapdown -> Prop :=
  | reach_default raw : reachable (Strapdown_default raw)
  | reach_init raw lat lon alt veln vele veld roll pitch yaw :
      reachable (Strapdown_init raw lat lon alt veln vele veld roll pitch yaw)
  | reach_SetPosition s lat lon alt :
      reachable s -> reachable (SetPosition s lat lon alt)
  | reach_SetVelocity s veln vele veld :
      reachable s -> reachable (SetVelocity s veln vele veld)
  | reach_SetAttitude s roll pitch yaw :
      reachable s -> reachable (SetAttitude s roll pitch yaw)
  | reach_SetAttitudeDcm s C :
      reachable s -> reachable (SetAttitudeDcm s C)
  | reach_Mechanize s wb fb dt :
      reachable s -> reachable (Mechanize s wb fb dt).

(** *** Closed forms the statements are phrased with *)

(** [1 - e^2 sin^2(phi)] *)
Definition ecc_term (phi : R) : R := 1 - WGS84_E2 K * (sin phi * sin phi).

(** Transverse radius [Re = R0 / sqrt(1 - e^2 sin^2 phi)] and meridian
    radius [Rn = R0 (1 - e^2) / (1 - e^2 sin^2 phi)^(3/2)]. *)
Definition transverse_radius (phi : R) : R := WGS84_R0 K / sqrt (ecc_term phi).
Definition meridian_radius (phi : R) : R :=
  WGS84_R0 K * (1 - WGS84_E2 K) / Rpower (ecc_term phi) (3 / 2).

(** Normal gravity [g0(phi)] and the altitude correction factor. *)
Definition normal_gravity (phi : R) : R :=
  9.7803253359 * ((1 + 0.001931853 * (sin phi * sin phi)) / sqrt (ecc_term phi)).
Definition gravity_correction (phi h : R) : R :=
  1 - (2 * h / WGS84_R0 K) *
        (1 + WGS84_F K * (1 - 2 * (sin phi * sin phi)) +
         WGS84_OMEGA K * WGS84_OMEGA K * WGS84_R0 K * WGS84_R0 K * WGS84_RP K
           / WGS84_MU K)
    + 3 * ((h / WGS84_R0 K) * (h / WGS84_R0 K)).

Definition gravity (phi h : R) : Vector3d :=
  V3 (-8.08e-9 * h * sin (2 * phi)) 0
     (normal_gravity phi * gravity_correction phi h).

Definition earth_rate (phi : R) : Vector3d :=
  V3 (WGS84_OMEGA K * cos phi) 0 (WGS84_OMEGA K * sin phi).

(** [w_en_n = [ve/(Re+h), -vn/(Rn+h), -ve*tan(phi)/(Re+h)]] *)
Definition transport_rate (phi h vn ve : R) : Vector3d :=
  V3 (ve / (transverse_radius phi + h))
     (- vn / (meridian_radius phi + h))
     (- ve * tan phi / (transverse_radius phi + h)).

(** [we = w_ie_n + 2 * w_en_n] at the state [s]. *)
Definition coriolis_rate (s : Strapdown) : Vector3d :=
  vadd (earth_rate (phi_ s))
       (smul 2 (transport_rate (phi_ s) (h_ s) (vn_ s) (ve_ s))).

(** The three cross terms as the source writes them. *)
Definition cross_terms (we : Vector3d) (vn ve vd : R) : Vector3d :=
  V3 (x1 we * vd - x2 we * ve) (x0 we * vd - x2 we * vn) (x0 we * ve - x1 we * vn).

(** The velocity delta of one step, from the state before the step:
    rotate [fb] with the stored matrix, add gravity, subtract the cross
    terms, scale by [dt]. *)
Definition velocity_delta (s : Strapdown) (fb : Vector3d) (dt : R) : Vector3d :=
  vmuls
    (vsub (vadd (mulv3 (C_b_l_ s) fb) (gravity (phi_ s) (h_ s)))
          (cross_terms (coriolis_rate s) (vn_ s) (ve_ s) (vd_ s)))
    dt.

(** The rotation-vector increment [psi] and the half angle [gamma]. *)
Definition rotation_increment (s : Strapdown) (wb : Vector3d) (dt : R) : Vector3d :=
  vmuls
    (vsub wb
       (mulv3 (transpose (C_b_l_ s))
          (vadd (earth_rate (phi_ s))
                (transport_rate (phi_ s) (h_ s) (vn_ s) (ve_ s)))))
    dt.
Definition half_angle (s : Strapdown) (wb : Vector3d) (dt : R) : R :=
  0.5 * norm3 (rotation_increment s wb dt).

(** The two forms of the vector part of the update quaternion. *)
Definition rodrigues_form (psi : Vector3d) (gamma : R) : Vector3d :=
  vmuls psi (0.5 * sin gamma / gamma).
Definition taylor_form (psi : Vector3d) : Vector3d := vmuls psi 0.5.

(** Renormalisation [q / q.norm()]. *)
Definition normalized (q : Vector4d) : Vector4d := divs4 q (norm4 q).

(** The vector part of the update quaternion, as the branch selects it. *)
Definition update_vector (psi : Vector3d) : Vector3d :=
  if Rlt_dec (0.5 * norm3 psi) 1e-5 then taylor_form psi
  else rodrigues_form psi (0.5 * norm3 psi).

(** Members the constructors fix and no operation changes. *)
Definition ctor_inv (s : Strapdown) : Prop :=
  X1ME2_ s = 1 - WGS84_E2 K /\
  wR0sqRpMu_ s =
    WGS84_OMEGA K * WGS84_OMEGA K * WGS84_R0 K * WGS84_R0 K * WGS84_RP K / WGS84_MU K /\
  x1 (g_ s) = 0 /\
  x1 (w_ie_n_ s) = 0.

(** The state after a step, member by member, from the state before it. *)
Definition step_result (s : Strapdown) (wb fb : Vector3d) (dt : R) : Strapdown :=
  let dv := velocity_delta s fb dt in
  let psi := rotation_increment s wb dt in
  let gamma := half_angle s wb dt in
  let q :=
    normalized
      (mulv4 (qdot_matrix (cos gamma)
                (if Rlt_dec gamma 1e-5 then taylor_form psi
                 else rodrigues_form psi gamma))
             (q_b_l_ s)) in
  {| phi_ := phi_ s + (vn_ s + 0.5 * x0 dv) / (meridian_radius (phi_ s) + h_ s) * dt;
     lam_ := lam_ s +
             (ve_ s + 0.5 * x1 dv) /
               ((transverse_radius (phi_ s) + h_ s) * cos (phi_ s)) * dt;
     h_ := h_ s - (vd_ s + 0.5 * x2 dv) * dt;
     vn_ := vn_ s + x0 dv;
     ve_ := ve_ s + x1 dv;
     vd_ := vd_ s + x2 dv;
     q_b_l_ := q;
     C_b_l_ := quat2dcm A q;
     X1ME2_ := X1ME2_ s;
     g_ := gravity (phi_ s) (h_ s);
     w_en_n_ := transport_rate (phi_ s) (h_ s) (vn_ s) (ve_ s);
     w_ie_n_ := earth_rate (phi_ s);
     wR0sqRpMu_ := wR0sqRpMu_ s;
     sL_ := sin (phi_ s);
     cL_ := cos (phi_ s);
     tL_ := sin (phi_ s) / cos (phi_ s);
     sLsq_ := sin (phi_ s) * sin (phi_ s);
     Re_ := transverse_radius (phi_ s);
     Rn_ := meridian_radius (phi_ s);
     He_ := transverse_radius (phi_ s) + h_ s;
     Hn_ := meridian_radius (phi_ s) + h_ s;
     g0_ := normal_gravity (phi_ s) |}.

(** Hamilton product of two quaternions (scalar part first). *)
Definition qmul (p q : Vector4d) : Vector4d :=
  V4 (q0 p * q0 q - q1 p * q1 q - q2 p * q2 q - q3 p * q3 q)
     (q0 p * q1 q + q1 p * q0 q + q2 p * q3 q - q3 p * q2 q)
     (q0 p * q2 q - q1 p * q3 q + q2 p * q0 q + q3 p * q1 q)
     (q0 p * q3 q + q1 p * q2 q - q2 p * q1 q + q3 p * q0 q).

(** A sequence of IMU samples [(wb, fb, dt)] fed to [Mechanize] in order. *)
Fixpoint Mechanize_all (s : Strapdown) (imu : list (Vector3d * Vector3d * R))
    : Strapdown :=
  match imu with
  | [] => s
  | (wb, fb, dt) :: rest => Mechanize_all (Mechanize s wb fb dt) rest
  end.


(** *** Further notions used in the statements *)

(** Objects whose attitude has been set: built by the 9-argument
    constructor, or passed through [SetAttitude(roll, pitch, yaw)] or
    [Mechanize], and then through any sequence of public operations other
    than [SetAttitude(C)]. *)
Inductive attitude_defined : Strapdown -> Prop :=
  | ad_init raw lat lon alt veln vele veld roll pitch yaw :
      attitude_defined (Strapdown_init raw lat lon alt veln vele veld roll pitch yaw)
  | ad_SetAttitude s roll pitch yaw : attitude_defined (SetAttitude s roll pitch yaw)
  | ad_Mechanize s wb fb dt : attitude_defined (Mechanize s wb fb dt)
  | ad_SetPosition s lat lon alt :
      attitude_defined s -> attitude_defined (SetPosition s lat lon alt)
  | ad_SetVelocity s veln vele veld :
      attitude_defined s -> attitude_defined (SetVelocity s veln vele veld).

(** Two objects agree on every member except the cached scalars, the
    transport rate and the north and down components of the gravity and
    Earth-rate vectors. *)
Definition same_inputs (s1 s2 : Strapdown) : Prop :=
  phi_ s1 = phi_ s2 /\ lam_ s1 = lam_ s2 /\ h_ s1 = h_ s2 /\
  vn_ s1 = vn_ s2 /\ ve_ s1 = ve_ s2 /\ vd_ s1 = vd_ s2 /\
  q_b_l_ s1 = q_b_l_ s2 /\ C_b_l_ s1 = C_b_l_ s2 /\
  X1ME2_ s1 = X1ME2_ s2 /\ wR0sqRpMu_ s1 = wR0sqRpMu_ s2 /\
  x1 (g_ s1) = x1 (g_ s2) /\ x1 (w_ie_n_ s1) = x1 (w_ie_n_ s2).

End Strapdown.

(** *** Concrete parameters

    The WGS84 values and the textbook attitude conversions (Groves, 2nd
    edition, section 2.2), on which the integrator can be run on concrete
    inputs. *)

Definition WGS84 : Constants :=
  {| WGS84_E2 := 0.00669437999014;
     WGS84_R0 := 6378137.0;
     WGS84_RP := 6356752.314245;
     WGS84_OMEGA := 7.292115e-5;
     WGS84_MU := 3.986004418e14;
     WGS84_F := 1 / 298.257223563 |}.

Definition euler2quat_textbook (rpy : Vector3d) : Vector4d :=
  let cr := cos (x0 rpy / 2) in let sr := sin (x0 rpy / 2) in
  let cp := cos (x1 rpy / 2) in let sp := sin (x1 rpy / 2) in
  let cy := cos (x2 rpy / 2) in let sy := sin (x2 rpy / 2) in
  V4 (cr * cp * cy + sr * sp * sy)
     (sr * cp * cy - cr * sp * sy)
     (cr * sp * cy + sr * cp * sy)
     (cr * cp * sy - sr * sp * cy).

Definition quat2dcm_textbook (q : Vector4d) : Matrix3d :=
  let w := q0 q in let x := q1 q in let y := q2 q in let z := q3 q in
  M3 (V3 (w * w + x * x - y * y - z * z) (2 * (x * y - z * w)) (2 * (x * z + y * w)))
     (V3 (2 * (x * y + z * w)) (w * w - x * x + y * y - z * z) (2 * (y * z - x * w)))
     (V3 (2 * (x * z - y * w)) (2 * (y * z + x * w)) (w * w - x * x - y * y + z * z)).

Definition dcm2quat_textbook (C : Matrix3d) : Vector4d :=
  let w := 0.5 * sqrt (1 + x0 (row0 C) + x1 (row1 C) + x2 (row2 C)) in
  V4 w
     ((x1 (row2 C) - x2 (row1 C)) / (4 * w))
     ((x2 (row0 C) - x0 (row2 C)) / (4 * w))
     ((x0 (row1 C) - x1 (row0 C)) / (4 * w)).

Definition textbook : Attitude :=
  {| euler2quat := euler2quat_textbook;
     quat2dcm := quat2dcm_textbook;
     dcm2quat := dcm2quat_textbook |}.

(** Zero-filled storage. *)
Definition zero_storage : Strapdown :=
  {| phi_ := 0; lam_ := 0; h_ := 0; vn_ := 0; ve_ := 0; vd_ := 0;
     q_b_l_ := V4 0 0 0 0; C_b_l_ := M3 Zero3 Zero3 Zero3;
     X1ME2_ := 0; g_ := Zero3; w_en_n_ := Zero3; w_ie_n_ := Zero3; wR0sqRpMu_ := 0;
     sL_ := 0; cL_ := 0; tL_ := 0; sLsq_ := 0; Re_ := 0; Rn_ := 0; He_ := 0; Hn_ := 0;
     g0_ := 0 |}.

(** An object on the equator at sea level, at rest, level and pointing
    north, and the same object built with the default constructor, whose
    attitude was never set. *)
Definition at_rest : Strapdown :=
  Strapdown_init WGS84 textbook zero_storage 0 0 0 0 0 0 0 0 0.
Definition attitude_unset : Strapdown :=
  SetVelocity (SetPosition (Strapdown_default WGS84 zero_storage) 0 0 0) 0 0 0.

End sturdins.

(** ** tests/test_sim_ins.cpp: the main loop of the simulation driver

    The loop counter [i] is an [int]; [%] is the truncating remainder and
    [~] the bitwise NOT of two's complement.  The filter, the sensor models
    and the file I/O are outside the sources; one iteration is modelled by
    the sequence of calls it makes. *)

Module test_sim_ins.
Local Open Scope Z_scope.

(** [a % b] and [~a] on [int]. *)
Definition int_rem (a b : Z) : Z := Z.rem a b.
Definition int_not (a : Z) : Z := Z.lnot a.

(** An [int] used as a condition is true when it is not zero. *)
Definition truthy (a : Z) : bool := negb (a =? 0).

(** [~(i % 20)] *)
Definition gnss_guard (i : Z) : bool := truthy (int_not (int_rem i 20)).

Inductive call : Type :=
  | Initialize          (* the block under [if (i == 0)] *)
  | ImuModel
  | ClockModel
  | Mechanize
  | Propagate
  | MeasurementModel
  | GnssUpdate
  | WriteResult         (* [fout.write] *)
  | PrintResult.        (* [std::cout << ...] *)

Definition call_eq_dec (a b : call) : {a = b} + {a <> b}.
Proof. decide equality. Defined.

(** The body of the [while] loop at counter [i]. *)
Definition iteration (i : Z) : list call :=
  (if i =? 0 then [Initialize] else []) ++
  [ImuModel; ClockModel; Mechanize; Propagate] ++
  (if gnss_guard i
   then [MeasurementModel; GnssUpdate; WriteResult; PrintResult]
   else []).

(** The loop over [records] records read from the truth file, from counter
    [i] on; [main] starts it at [i = 0]. *)
Fixpoint main_loop (records : nat) (i : Z) : list call :=
  match records with
  | O => []
  | S rest => iteration i ++ main_loop rest (i + 1)
  end.

Definition main (records : nat) : list call := main_loop records 0.

(** Number of times [c] is called. *)
Definition calls (c : call) (trace : list call) : nat := count_occ call_eq_dec trace c.

End test_sim_ins.

(** ** sturdins::GaussNewton and sturdins::RangeAndRate

    Only the declarations of the two functions are part of the sources
    ([include/sturdins/least-squares.hpp]); their bodies are modelled from
    the specification, over a real closed field that stands for [double]. *)

Module least_squares.
Import mathcomp.boot.boot mathcomp.order.order mathcomp.algebra.algebra.
Import GRing.Theory Num.Theory.
Local Open Scope ring_scope.

Section GaussNewton.
Variable F : rcfType.

(** Euclidean norm of a column vector. *)
Definition norm {m : nat} (v : 'cV[F]_m) : F := Num.sqrt (\sum_i v i 0 ^+ 2).

(** The outputs of [RangeAndRate]. *)
Record Prediction : Type := mkPrediction {
  pred_u : 'cV[F]_3;
  pred_udot : 'cV[F]_3;
  pred_psr : F;
  pred_psrdot : F
}.

(** What the specification leaves open: the formula of the unit-vector
    rate, the rows of the design matrix a prediction contributes, the
    convergence threshold and the iteration cap. *)
Variable unit_vector_rate : 'cV[F]_3 -> 'cV[F]_3 -> 'cV[F]_3.
Variable design_rows : Prediction -> 'rV[F]_8 * 'rV[F]_8.
Variable threshold : F.
Variable max_iterations : nat.

(** Modelled from the spec: the body of [RangeAndRate], which is not part
    of the sources.  The geometric range is the Euclidean distance from user
    to satellite, the unit vector is the normalised line of sight, the
    predicted pseudorange is the range plus the clock bias, the range rate
    is the projection of the relative velocity on the line of sight and the
    predicted pseudorange rate is the range rate plus the clock drift. *)
Definition RangeAndRate (pos vel : 'cV[F]_3) (cb cd : F) (sv_pos sv_vel : 'cV[F]_3)
    : Prediction :=
  let dr := sv_pos - pos in
  let r := norm dr in
  let u := r^-1 *: dr in
  let dv := sv_vel - vel in
  let rate := (u^T *m dv) 0 0 in
  {| pred_u := u;
     pred_udot := unit_vector_rate dr dv;
     pred_psr := r + cb;
     pred_psrdot := rate + cd |}.

Section Epoch.

(** One epoch of [n] satellites: positions and velocities (one column per
    satellite), pseudoranges, pseudorange rates and their variances. *)
Variable n : nat.
Variables sv_pos sv_vel : 'M[F]_(3, n).
Variables psr psrdot psr_var psrdot_var : 'cV[F]_n.

(** The 8-element state: position (3), velocity (3), clock bias, clock drift. *)
Definition state_pos (x : 'cV[F]_8) : 'cV[F]_3 := usubmx (x : 'cV[F]_(3 + (3 + 2))).
Definition state_vel (x : 'cV[F]_8) : 'cV[F]_3 :=
  usubmx (dsubmx (x : 'cV[F]_(3 + (3 + 2)))).
Definition state_cb (x : 'cV[F]_8) : F :=
  dsubmx (dsubmx (x : 'cV[F]_(3 + (3 + 2)))) 0 0.
Definition state_cd (x : 'cV[F]_8) : F :=
  dsubmx (dsubmx (x : 'cV[F]_(3 + (3 + 2)))) 1 0.

Definition predict (x : 'cV[F]_8) (i : 'I_n) : Prediction :=
  RangeAndRate (state_pos x) (state_vel x) (state_cb x) (state_cd x)
               (col i sv_pos) (col i sv_vel).

(** Design matrix: the pseudorange rows stacked on the pseudorange-rate rows. *)
Definition design (x : 'cV[F]_8) : 'M[F]_(n + n, 8) :=
  col_mx (\matrix_(i < n) (design_rows (predict x i)).1)
         (\matrix_(i < n) (design_rows (predict x i)).2).

(** Residual: observed minus predicted, pseudoranges stacked on rates. *)
Definition residual (x : 'cV[F]_8) : 'cV[F]_(n + n) :=
  col_mx (\col_(i < n) (psr i 0 - pred_psr (predict x i)))
         (\col_(i < n) (psrdot i 0 - pred_psrdot (predict x i))).

(** Weights: the inverse measurement variances. *)
Definition weights : 'M[F]_(n + n) :=
  diag_mx (col_mx (\col_(i < n) (psr_var i 0)^-1) (\col_(i < n) (psrdot_var i 0)^-1))^T.

(** Weighted information matrix and the solution of the normal equations. *)
Definition information (x : 'cV[F]_8) : 'M[F]_8 :=
  (design x)^T *m weights *m design x.
Definition update (x : 'cV[F]_8) : 'cV[F]_8 :=
  invmx (information x) *m (design x)^T *m weights *m residual x.

(** Modelled from the spec: the body of [GaussNewton], which is not part of
    the sources.  Each iteration builds the design matrix and the residual
    at the current estimate, solves the weighted normal equations, applies
    the update and recomputes the covariance as the inverse of the
    information matrix; it returns [true] when the norm of the update is
    below the threshold, and [false] when the information matrix is
    singular or when the iteration cap is reached.  The estimate and the
    covariance, passed by reference, are returned with the status. *)
Fixpoint GaussNewton_loop (k : nat) (x : 'cV[F]_8) (P : 'M[F]_8)
    : bool * 'cV[F]_8 * 'M[F]_8 :=
  match k with
  | 0%N => (false, x, P)
  | k'.+1 =>
      if information x \notin unitmx then (false, x, P)
      else
        let P' := invmx (information x) in
        let dx := update x in
        let x' := x + dx in
        if norm dx < threshold then (true, x', P')
        else GaussNewton_loop k' x' P'
  end.

(** The estimate at the start of iteration [j], when the loop gets there. *)
Fixpoint estimate (j : nat) (x : 'cV[F]_8) : option 'cV[F]_8 :=
  match j with
  | 0%N => Some x
  | j'.+1 =>
      if (information x \in unitmx) && ~~ (norm (update x) < threshold)
      then estimate j' (x + update x)
      else None
  end.

End Epoch.

Definition GaussNewton (n : nat) (x : 'cV[F]_8) (P : 'M[F]_8)
    (sv_pos sv_vel : 'M[F]_(3, n)) (psr psrdot psr_var psrdot_var : 'cV[F]_n)
    : bool * 'cV[F]_8 * 'M[F]_8 :=
  GaussNewton_loop n sv_pos sv_vel psr psrdot psr_var psrdot_var max_iterations x P.

End GaussNewton.

Arguments norm {F m} v.
Arguments design {F} unit_vector_rate design_rows {n} sv_pos sv_vel x.
Arguments residual {F} unit_vector_rate {n} sv_pos sv_vel psr psrdot x.
Arguments weights {F n} psr_var psrdot_var.
Arguments information {F} unit_vector_rate design_rows {n} sv_pos sv_vel psr_var psrdot_var x.
Arguments update {F} unit_vector_rate design_rows {n}
  sv_pos sv_vel psr psrdot psr_var psrdot_var x.
Arguments GaussNewton_loop {F} unit_vector_rate design_rows threshold {n}
  sv_pos sv_vel psr psrdot psr_var psrdot_var k x P.
Arguments estimate {F} unit_vector_rate design_rows threshold {n}
  sv_pos sv_vel psr psrdot psr_var psrdot_var j x.
Arguments GaussNewton {F} unit_vector_rate design_rows threshold max_iterations {n}
  x P sv_pos sv_vel psr psrdot psr_var psrdot_var.

End least_squares.

(** * Properties of the strapdown integrator *)

Module StrapdownProofs.
Import Eigen navtools sturdins.
Local Open Scope R_scope.

(** Run the straight-line code of the class on a state given field by
    field; vector operations stay folded. *)
Ltac run_code :=
  cbv beta iota zeta delta
    [Mechanize GravityVector EarthRateVector TransportRateVector
     Strapdown_default Strapdown_init SetPosition SetVelocity SetAttitude SetAttitudeDcm
     set_phi_ set_lam_ set_h_ set_vn_ set_ve_ set_vd_ set_q_b_l_ set_C_b_l_
     set_X1ME2_ set_g_ set_w_en_n_ set_w_ie_n_ set_wR0sqRpMu_
     set_sL_ set_cL_ set_tL_ set_sLsq_ set_Re_ set_Rn_ set_He_ set_Hn_ set_g0_
     phi_ lam_ h_ vn_ ve_ vd_ q_b_l_ C_b_l_ X1ME2_ g_ w_en_n_ w_ie_n_ wR0sqRpMu_
     sL_ cL_ tL_ sLsq_ Re_ Rn_ He_ Hn_ g0_ set0 set1 set2];
  cbn [x0 x1 x2].

Lemma lit_1 : 1.0 = 1.
Proof. lra. Qed.
Lemma lit_2 : 2.0 = 2.
Proof. lra. Qed.
Lemma lit_3 : 3.0 = 3.
Proof. lra. Qed.
Lemma lit_half : 0.5 = / 2.
Proof. lra. Qed.

Ltac literals := rewrite ?lit_1, ?lit_2, ?lit_3.

Section Facts.
Context (K : Constants) (A : Attitude).

(** ** Members fixed by the constructors *)

Lemma reachable_ctor_inv (s : Strapdown) : reachable K A s -> ctor_inv K s.
Proof.
  induction 1; unfold ctor_inv in *;
    try match goal with s : Strapdown |- _ => destruct s end;
    run_code; auto.
Qed.

(** ** Radii of curvature: the code's expressions and the closed forms *)

Lemma ecc_term_pos (phi : R) : WGS84_E2 K < 1 -> 0 < ecc_term K phi.
Proof.
  intros He. unfold ecc_term.
  pose proof (SIN_bound phi) as [Hlo Hhi].
  assert (Hs : 0 <= sin phi * sin phi <= 1) by nra.
  destruct (Rle_dec 0 (WGS84_E2 K)); nra.
Qed.

Lemma three_halves_power (t : R) : 0 < t -> Rpower t (3 / 2) = t * sqrt t.
Proof.
  intros Ht.
  replace (3 / 2) with (1 + / 2) by lra.
  rewrite Rpower_plus, Rpower_1, Rpower_sqrt by assumption.
  reflexivity.
Qed.

Lemma sq_over_sqrt (t : R) : 0 < t -> t * t / sqrt t = t * sqrt t.
Proof.
  intros Ht.
  assert (Hs : 0 < sqrt t) by (apply sqrt_lt_R0; assumption).
  assert (Hq : sqrt t * sqrt t = t) by (apply sqrt_sqrt; lra).
  rewrite <- Hq at 2.
  field. lra.
Qed.

Lemma Re_code (phi : R) :
  WGS84_R0 K / sqrt (1.0 - WGS84_E2 K * (sin phi * sin phi)) = transverse_radius K phi.
Proof. literals. reflexivity. Qed.

Lemma Rn_code (phi : R) :
  WGS84_E2 K < 1 ->
  WGS84_R0 K * (1 - WGS84_E2 K) /
    ((1.0 - WGS84_E2 K * (sin phi * sin phi)) *
     (1.0 - WGS84_E2 K * (sin phi * sin phi)) /
     sqrt (1.0 - WGS84_E2 K * (sin phi * sin phi))) = meridian_radius K phi.
Proof.
  intros He. literals. fold (ecc_term K phi). unfold meridian_radius.
  pose proof (ecc_term_pos phi He) as Ht.
  rewrite sq_over_sqrt, three_halves_power by assumption.
  reflexivity.
Qed.

Lemma g0_code (phi : R) :
  9.7803253359 *
    ((1.0 + 0.001931853 * (sin phi * sin phi)) /
     sqrt (1.0 - WGS84_E2 K * (sin phi * sin phi))) = normal_gravity K phi.
Proof. literals. reflexivity. Qed.

(** ** The vectors recomputed at the start of a step *)

Lemma Mechanize_g (s : Strapdown) (wb fb : Vector3d) (dt : R) :
  ctor_inv K s ->
  g_ (Mechanize K A s wb fb dt) = gravity K (phi_ s) (h_ s).
Proof.
  intros (_ & Hw & Hg & _). destruct s. run_code.
  cbn [wR0sqRpMu_ g_ x1] in Hw, Hg. subst.
  rewrite g0_code. unfold gravity, gravity_correction. literals.
  rewrite Hg. reflexivity.
Qed.

Lemma w_ie_code (phi y : R) :
  y = 0 ->
  V3 (WGS84_OMEGA K * cos phi) y (WGS84_OMEGA K * sin phi) = earth_rate K phi.
Proof. intros ->. reflexivity. Qed.

Lemma w_en_code (phi h vn ve : R) :
  V3 (ve / (transverse_radius K phi + h))
     (- vn / (meridian_radius K phi + h))
     (- (ve / (transverse_radius K phi + h)) * (sin phi / cos phi))
  = transport_rate K phi h vn ve.
Proof.
  unfold transport_rate, tan. f_equal. unfold Rdiv. ring.
Qed.

Lemma Mechanize_step_result (s : Strapdown) (wb fb : Vector3d) (dt : R) :
  ctor_inv K s -> WGS84_E2 K < 1 ->
  Mechanize K A s wb fb dt = step_result K A s wb fb dt.
Proof.
  intros (Hx & Hw & Hg & Hi) He. destruct s.
  cbn [X1ME2_ wR0sqRpMu_ g_ w_ie_n_] in Hx, Hw, Hg, Hi. subst.
  unfold step_result, velocity_delta, rotation_increment, half_angle, coriolis_rate,
    rodrigues_form, taylor_form, normalized, cross_terms.
  run_code.
  rewrite ?Re_code, ?(Rn_code _ He), ?g0_code, ?Hg, ?(w_ie_code _ _ Hi), ?w_en_code.
  unfold gravity, gravity_correction. literals.
  cbn [x0 x1 x2 vmuls vsub vadd].
  f_equal; reflexivity.
Qed.

Lemma reachable_step_result (s : Strapdown) (wb fb : Vector3d) (dt : R) :
  reachable K A s -> WGS84_E2 K < 1 ->
  Mechanize K A s wb fb dt = step_result K A s wb fb dt.
Proof.
  intros Hr He. apply Mechanize_step_result; [apply reachable_ctor_inv|]; assumption.
Qed.

(** ** Quaternion algebra of the attitude update *)

Lemma dot3_nonneg (v : Vector3d) : 0 <= dot3 v v.
Proof. unfold dot3. nra. Qed.

Lemma norm3_nonneg (v : Vector3d) : 0 <= norm3 v.
Proof. apply sqrt_pos. Qed.

Lemma norm3_sqr (v : Vector3d) : norm3 v * norm3 v = dot3 v v.
Proof. apply sqrt_sqrt, dot3_nonneg. Qed.

Lemma dot3_vmuls (v : Vector3d) (a : R) :
  dot3 (vmuls v a) (vmuls v a) = a * a * dot3 v v.
Proof. unfold dot3, vmuls. cbn [x0 x1 x2]. ring. Qed.

Lemma dot4_nonneg (q : Vector4d) : 0 <= dot4 q q.
Proof. unfold dot4. nra. Qed.

Lemma dot4_pos (q : Vector4d) : q <> V4 0 0 0 0 -> 0 < dot4 q q.
Proof.
  intros Hq. destruct q as [a b c d]. unfold dot4. cbn [q0 q1 q2 q3].
  destruct (Req_dec a 0) as [-> | Ha]; [| nra].
  destruct (Req_dec b 0) as [-> | Hb]; [| nra].
  destruct (Req_dec c 0) as [-> | Hc]; [| nra].
  destruct (Req_dec d 0) as [-> | Hd]; [| nra].
  contradiction Hq. reflexivity.
Qed.

(** Applying [qdot] multiplies the squared norm by that of the update
    quaternion [(cgamma, psi)] (Euler's four-square identity). *)
Lemma dot4_mulv4_qdot (c : R) (p : Vector3d) (q : Vector4d) :
  dot4 (mulv4 (qdot_matrix c p) q) (mulv4 (qdot_matrix c p) q)
  = (c * c + dot3 p p) * dot4 q q.
Proof.
  destruct p, q. unfold mulv4, qdot_matrix, dot4, dot3.
  cbn [q0 q1 q2 q3 x0 x1 x2 r0 r1 r2 r3]. ring.
Qed.

(** [qdot * q] is the Hamilton product of [q] by the update quaternion. *)
Lemma mulv4_qdot_hamilton (c : R) (p : Vector3d) (q : Vector4d) :
  mulv4 (qdot_matrix c p) q = qmul q (V4 c (x0 p) (x1 p) (x2 p)).
Proof.
  destruct p, q. unfold mulv4, qdot_matrix, dot4, qmul.
  cbn [q0 q1 q2 q3 x0 x1 x2 r0 r1 r2 r3]. f_equal; ring.
Qed.

Lemma taylor_update_nonzero (psi : Vector3d) :
  0 < cos (0.5 * norm3 psi) * cos (0.5 * norm3 psi)
      + dot3 (vmuls psi 0.5) (vmuls psi 0.5).
Proof.
  pose proof (norm3_nonneg psi) as Hn. pose proof (norm3_sqr psi) as Hs.
  remember (0.5 * norm3 psi) as gamma eqn:Hgam.
  assert (Hpsi : norm3 psi = 2 * gamma) by lra.
  rewrite dot3_vmuls, <- Hs, Hpsi.
  destruct (Req_dec gamma 0) as [Hz | Hnz].
  - rewrite Hz, cos_0. lra.
  - assert (0 < gamma * gamma) by nra.
    assert (0 <= cos gamma * cos gamma) by nra.
    nra.
Qed.

(** With the exact form the update quaternion has unit norm. *)
Lemma rodrigues_update_unit (psi : Vector3d) :
  0.5 * norm3 psi <> 0 ->
  cos (0.5 * norm3 psi) * cos (0.5 * norm3 psi)
  + dot3 (vmuls psi (0.5 * sin (0.5 * norm3 psi) / (0.5 * norm3 psi)))
         (vmuls psi (0.5 * sin (0.5 * norm3 psi) / (0.5 * norm3 psi))) = 1.
Proof.
  pose proof (norm3_sqr psi) as Hs.
  remember (0.5 * norm3 psi) as gamma eqn:Hgam. intros Hg.
  assert (Hpsi : norm3 psi = 2 * gamma) by lra.
  rewrite dot3_vmuls, <- Hs, Hpsi.
  replace (0.5 * sin gamma / gamma * (0.5 * sin gamma / gamma)
           * (2 * gamma * (2 * gamma)))
    with (sin gamma * sin gamma) by (rewrite lit_half; field; lra).
  pose proof (sin2_cos2 gamma) as H1. unfold Rsqr in H1. lra.
Qed.

Lemma update_quaternion_nonzero (psi : Vector3d) :
  0 < cos (0.5 * norm3 psi) * cos (0.5 * norm3 psi)
      + dot3 (update_vector psi) (update_vector psi).
Proof.
  unfold update_vector, taylor_form, rodrigues_form.
  destruct (Rlt_dec (0.5 * norm3 psi) 1e-5) as [Hlt | Hge].
  - apply taylor_update_nonzero.
  - rewrite rodrigues_update_unit; lra.
Qed.

Lemma norm4_normalized (v : Vector4d) : 0 < dot4 v v -> norm4 (normalized v) = 1.
Proof.
  intros Hv. unfold normalized, norm4 at 1.
  assert (Hn : 0 < norm4 v) by (apply sqrt_lt_R0; assumption).
  assert (Hs : norm4 v * norm4 v = dot4 v v) by (apply sqrt_sqrt; lra).
  replace (dot4 (divs4 v (norm4 v)) (divs4 v (norm4 v))) with 1.
  - apply sqrt_1.
  - destruct v as [a b c d]. unfold divs4, dot4 in *. cbn [q0 q1 q2 q3] in *.
    set (n := norm4 _) in *.
    replace (a / n * (a / n) + b / n * (b / n) + c / n * (c / n) + d / n * (d / n))
      with ((a * a + b * b + c * c + d * d) / (n * n)) by (field; lra).
    rewrite <- Hs. field. lra.
Qed.

Lemma Mechanize_q_shape (s : Strapdown) (wb fb : Vector3d) (dt : R) :
  exists psi : Vector3d,
    q_b_l_ (Mechanize K A s wb fb dt)
    = normalized
        (mulv4 (qdot_matrix (cos (0.5 * norm3 psi)) (update_vector psi)) (q_b_l_ s)).
Proof.
  destruct s. run_code. eexists. unfold update_vector, taylor_form, rodrigues_form,
    normalized. reflexivity.
Qed.

Lemma Mechanize_C (s : Strapdown) (wb fb : Vector3d) (dt : R) :
  C_b_l_ (Mechanize K A s wb fb dt) = quat2dcm A (q_b_l_ (Mechanize K A s wb fb dt)).
Proof. destruct s. run_code. reflexivity. Qed.

Lemma Mechanize_unit_norm (s : Strapdown) (wb fb : Vector3d) (dt : R) :
  q_b_l_ s <> V4 0 0 0 0 -> norm4 (q_b_l_ (Mechanize K A s wb fb dt)) = 1.
Proof.
  intros Hq. destruct (Mechanize_q_shape s wb fb dt) as [psi ->].
  apply norm4_normalized. rewrite dot4_mulv4_qdot.
  apply Rmult_lt_0_compat; [apply update_quaternion_nonzero | apply dot4_pos, Hq].
Qed.

Lemma Mechanize_zero_quaternion (s : Strapdown) (wb fb : Vector3d) (dt : R) :
  q_b_l_ s = V4 0 0 0 0 -> q_b_l_ (Mechanize K A s wb fb dt) = V4 0 0 0 0.
Proof.
  intros Hq. destruct (Mechanize_q_shape s wb fb dt) as [psi ->]. rewrite Hq.
  set (p := update_vector psi). set (c := cos _).
  assert (Hz : mulv4 (qdot_matrix c p) (V4 0 0 0 0) = V4 0 0 0 0).
  { unfold mulv4, qdot_matrix, dot4. cbn [q0 q1 q2 q3 r0 r1 r2 r3]. f_equal; ring. }
  rewrite Hz. unfold normalized, divs4. cbn [q0 q1 q2 q3].
  f_equal; unfold Rdiv; ring.
Qed.

(** ** The checked run and the plain run *)

Lemma safe_div_nz (a b : R) : b <> 0 -> safe_div a b = Some (a / b).
Proof.
  intros Hb. unfold safe_div. destruct (Req_dec_T b 0); [contradiction | reflexivity].
Qed.

Lemma safe_divs4_nz (q : Vector4d) (a : R) : a <> 0 -> safe_divs4 q a = Some (divs4 q a).
Proof.
  intros Ha. unfold safe_divs4. destruct (Req_dec_T a 0); [contradiction | reflexivity].
Qed.

Lemma sqrt_ecc_nz (phi : R) :
  WGS84_E2 K < 1 -> sqrt (1.0 - WGS84_E2 K * (sin phi * sin phi)) <> 0.
Proof.
  intros He. pose proof (ecc_term_pos phi He) as Ht. unfold ecc_term in Ht.
  rewrite lit_1. apply Rgt_not_eq, sqrt_lt_R0, Ht.
Qed.

Lemma sq_over_sqrt_ecc_nz (phi : R) :
  WGS84_E2 K < 1 ->
  (1.0 - WGS84_E2 K * (sin phi * sin phi)) * (1.0 - WGS84_E2 K * (sin phi * sin phi))
    / sqrt (1.0 - WGS84_E2 K * (sin phi * sin phi)) <> 0.
Proof.
  intros He. pose proof (ecc_term_pos phi He) as Ht. unfold ecc_term in Ht.
  rewrite lit_1, sq_over_sqrt by assumption.
  pose proof (sqrt_lt_R0 _ Ht). nra.
Qed.

Lemma norm4_nz (q : Vector4d) : 0 < dot4 q q -> norm4 q <> 0.
Proof. intros Hq. apply Rgt_not_eq, sqrt_lt_R0, Hq. Qed.

Lemma norm4_mulv4_zero (c : R) (p : Vector3d) :
  norm4 (mulv4 (qdot_matrix c p) (V4 0 0 0 0)) = 0.
Proof.
  unfold norm4. rewrite dot4_mulv4_qdot. unfold dot4. cbn [q0 q1 q2 q3].
  replace ((c * c + dot3 p p) * (0 * 0 + 0 * 0 + 0 * 0 + 0 * 0)) with 0 by ring.
  apply sqrt_0.
Qed.

End Facts.

Ltac run_checked :=
  cbv beta iota zeta delta
    [Mechanize_checked GravityVector_checked TransportRateVector_checked bind
     Mechanize GravityVector EarthRateVector TransportRateVector
     set_phi_ set_lam_ set_h_ set_vn_ set_ve_ set_vd_ set_q_b_l_ set_C_b_l_
     set_X1ME2_ set_g_ set_w_en_n_ set_w_ie_n_ set_wR0sqRpMu_
     set_sL_ set_cL_ set_tL_ set_sLsq_ set_Re_ set_Rn_ set_He_ set_Hn_ set_g0_
     phi_ lam_ h_ vn_ ve_ vd_ q_b_l_ C_b_l_ X1ME2_ g_ w_en_n_ w_ie_n_ wR0sqRpMu_
     sL_ cL_ tL_ sLsq_ Re_ Rn_ He_ Hn_ g0_ set0 set1 set2];
  cbn [x0 x1 x2].

(** Decide the next division of the checked run. *)
Ltac case_div :=
  match goal with
  | |- context [safe_div ?a ?b] =>
      unfold safe_div at 1; destruct (Req_dec_T b 0); cbv beta iota
  | |- context [safe_divs4 ?a ?b] =>
      unfold safe_divs4 at 1; destruct (Req_dec_T b 0); cbv beta iota
  | |- context [Rlt_dec ?a ?b] => destruct (Rlt_dec a b); cbv beta iota
  end.

(** Discharge the next division of the checked run with [tac]. *)
Ltac pass_div tac :=
  match goal with
  | |- context [safe_div ?a ?b] =>
      let H := fresh "Hnz" in
      assert (H : b <> 0) by tac;
      rewrite (safe_div_nz a b H); clear H; cbv beta iota
  | |- context [safe_divs4 ?a ?b] =>
      let H := fresh "Hnz" in
      assert (H : b <> 0) by tac;
      rewrite (safe_divs4_nz a b H); clear H; cbv beta iota
  end.

Section Checked.
Context (K : Constants) (A : Attitude).

(** Whenever the checked run succeeds, it returns what [Mechanize] returns. *)
Lemma Mechanize_checked_sound (s s' : Strapdown) (wb fb : Vector3d) (dt : R) :
  Mechanize_checked K A s wb fb dt = Some s' -> s' = Mechanize K A s wb fb dt.
Proof.
  destruct s. run_checked.
  repeat (case_div; try discriminate).
  all: intros [= <-]; reflexivity.
Qed.

Lemma Mechanize_checked_zero_quaternion (s : Strapdown) (wb fb : Vector3d) (dt : R) :
  q_b_l_ s = V4 0 0 0 0 -> Mechanize_checked K A s wb fb dt = None.
Proof.
  destruct s. cbn [q_b_l_]. intros ->. run_checked.
  repeat (case_div; try reflexivity).
  all: exfalso;
    match goal with H : norm4 _ <> 0 |- _ => apply H, norm4_mulv4_zero end.
Qed.

Lemma Mechanize_checked_total (s : Strapdown) (wb fb : Vector3d) (dt : R) :
  ctor_inv K s -> WGS84_E2 K < 1 -> WGS84_R0 K <> 0 ->
  cos (phi_ s) <> 0 ->
  meridian_radius K (phi_ s) + h_ s <> 0 ->
  transverse_radius K (phi_ s) + h_ s <> 0 ->
  q_b_l_ s <> V4 0 0 0 0 ->
  Mechanize_checked K A s wb fb dt = Some (Mechanize K A s wb fb dt).
Proof.
  intros (Hx & _) He HR0 Hc Hn Ht Hq. destruct s.
  cbn [X1ME2_ phi_ h_ q_b_l_] in *. subst.
  rewrite <- Re_code in Ht. rewrite <- (Rn_code K _ He) in Hn.
  pose proof (sqrt_ecc_nz K phi_0 He) as Hs.
  pose proof (sq_over_sqrt_ecc_nz K phi_0 He) as Hss.
  run_checked.
  do 9 pass_div assumption.
  match goal with
  | |- context [Rlt_dec ?a ?b] => destruct (Rlt_dec a b); cbv beta iota
  end.
  - pass_div ltac:(apply norm4_nz; rewrite dot4_mulv4_qdot;
                   apply Rmult_lt_0_compat;
                   [apply taylor_update_nonzero | apply dot4_pos, Hq]).
    pass_div assumption.
    pass_div ltac:(apply Rmult_integral_contrapositive_currified; assumption).
    reflexivity.
  - pass_div lra.
    pass_div ltac:(apply norm4_nz; rewrite dot4_mulv4_qdot;
                   apply Rmult_lt_0_compat;
                   [rewrite rodrigues_update_unit; lra | apply dot4_pos, Hq]).
    pass_div assumption.
    pass_div ltac:(apply Rmult_integral_contrapositive_currified; assumption).
    reflexivity.
Qed.

End Checked.

(** ** The concrete objects *)

Lemma WGS84_E2_lt_1 : WGS84_E2 WGS84 < 1.
Proof. cbn [WGS84_E2 WGS84]. lra. Qed.

Lemma WGS84_R0_nz : WGS84_R0 WGS84 <> 0.
Proof. cbn [WGS84_R0 WGS84]. lra. Qed.

Lemma at_rest_reachable : reachable WGS84 textbook at_rest.
Proof. unfold at_rest. apply reach_init. Qed.

Lemma half_zero : 0 / 2 = 0.
Proof. lra. Qed.

Lemma at_rest_q : q_b_l_ at_rest = V4 1 0 0 0.
Proof.
  unfold at_rest, zero_storage. run_code.
  unfold textbook, euler2quat_textbook. cbn [euler2quat x0 x1 x2].
  rewrite half_zero, cos_0, sin_0. f_equal; ring.
Qed.

Lemma at_rest_C : C_b_l_ at_rest = M3 (V3 1 0 0) (V3 0 1 0) (V3 0 0 1).
Proof.
  unfold at_rest, zero_storage. run_code.
  unfold textbook, euler2quat_textbook, quat2dcm_textbook.
  cbn [euler2quat quat2dcm x0 x1 x2 q0 q1 q2 q3].
  rewrite half_zero, cos_0, sin_0. repeat f_equal; ring.
Qed.

Lemma at_rest_position :
  phi_ at_rest = 0 /\ lam_ at_rest = 0 /\ h_ at_rest = 0 /\
  vn_ at_rest = 0 /\ ve_ at_rest = 0 /\ vd_ at_rest = 0.
Proof. unfold at_rest, zero_storage. run_code. repeat split. Qed.

Lemma at_rest_q_nonzero : q_b_l_ at_rest <> V4 0 0 0 0.
Proof. rewrite at_rest_q. intros [= H]. lra. Qed.

Lemma attitude_unset_q : q_b_l_ attitude_unset = V4 0 0 0 0.
Proof. unfold attitude_unset, zero_storage. run_code. reflexivity. Qed.

Lemma attitude_unset_position : phi_ attitude_unset = 0 /\ h_ attitude_unset = 0.
Proof. unfold attitude_unset, zero_storage. run_code. split; reflexivity. Qed.

Lemma ecc_term_equator (K : Constants) : ecc_term K 0 = 1.
Proof. unfold ecc_term. rewrite sin_0. ring. Qed.

Lemma transverse_radius_equator (K : Constants) : transverse_radius K 0 = WGS84_R0 K.
Proof.
  unfold transverse_radius. rewrite ecc_term_equator, sqrt_1. unfold Rdiv.
  rewrite Rinv_1. ring.
Qed.

Lemma meridian_radius_equator (K : Constants) :
  meridian_radius K 0 = WGS84_R0 K * (1 - WGS84_E2 K).
Proof.
  unfold meridian_radius. rewrite ecc_term_equator.
  rewrite three_halves_power by lra. rewrite sqrt_1. unfold Rdiv.
  rewrite Rmult_1_r, Rinv_1. ring.
Qed.

Lemma equator_divisors :
  cos 0 <> 0 /\ meridian_radius WGS84 0 + 0 <> 0 /\ transverse_radius WGS84 0 + 0 <> 0.
Proof.
  rewrite cos_0, meridian_radius_equator, transverse_radius_equator.
  cbn [WGS84_R0 WGS84_E2 WGS84]. repeat split; lra.
Qed.

(** ** C1: quaternion norm and the quaternion / matrix pair *)

(** C1, amended.  After [Mechanize] on a state whose quaternion is not the
    zero vector, the quaternion has unit norm and the stored rotation matrix
    is [quat2dcm] of the stored quaternion.  [SetAttitude(roll, pitch, yaw)]
    leaves the matrix equal to [quat2dcm] of the quaternion;
    [SetAttitude(C)] stores [C] and leaves the quaternion equal to
    [dcm2quat] of the matrix, and the matrix is [quat2dcm] of the
    quaternion whenever [C] round-trips through the two conversions. *)
Theorem Mechanize_attitude_consistent
    (K : Constants) (A : Attitude) (s : Strapdown) (wb fb : Vector3d) (dt : R) :
  q_b_l_ s <> V4 0 0 0 0 ->
  let s' := Mechanize K A s wb fb dt in
  norm4 (q_b_l_ s') = 1 /\
  C_b_l_ s' = quat2dcm A (q_b_l_ s') /\
  (forall roll pitch yaw,
     C_b_l_ (SetAttitude A s roll pitch yaw)
     = quat2dcm A (q_b_l_ (SetAttitude A s roll pitch yaw))) /\
  (forall C,
     C_b_l_ (SetAttitudeDcm A s C) = C /\
     q_b_l_ (SetAttitudeDcm A s C) = dcm2quat A (C_b_l_ (SetAttitudeDcm A s C)) /\
     (quat2dcm A (dcm2quat A C) = C ->
      C_b_l_ (SetAttitudeDcm A s C) = quat2dcm A (q_b_l_ (SetAttitudeDcm A s C)))).
Proof.
  intros Hq s'. subst s'. split; [| split; [| split]].
  - apply Mechanize_unit_norm, Hq.
  - apply Mechanize_C.
  - intros roll pitch yaw. destruct s. run_code. reflexivity.
  - intros C. destruct s. run_code. repeat split. intros HC. symmetry. exact HC.
Qed.

Lemma Mechanize_attitude_consistent_witness :
  q_b_l_ at_rest <> V4 0 0 0 0 /\
  norm4 (q_b_l_ (Mechanize WGS84 textbook at_rest Zero3 (V3 0 0 (-9.7803253359)) 0.01)) = 1.
Proof.
  split.
  - exact at_rest_q_nonzero.
  - exact (proj1 (Mechanize_attitude_consistent WGS84 textbook at_rest Zero3
                    (V3 0 0 (-9.7803253359)) 0.01 at_rest_q_nonzero)).
Defined.

(** C1 as stated fails on an object whose attitude was never set (default
    constructor, zero-filled storage): the product [qdot * q] is the zero
    vector, the renormalisation divides it by its zero norm, and the result
    does not have unit norm. *)
Lemma Mechanize_attitude_unset_not_unit :
  norm4 (q_b_l_ (Mechanize WGS84 textbook attitude_unset Zero3
                   (V3 0 0 (-9.7803253359)) 0.01)) <> 1.
Proof.
  rewrite (Mechanize_zero_quaternion WGS84 textbook _ _ _ _ attitude_unset_q).
  unfold norm4, dot4. cbn [q0 q1 q2 q3].
  replace (0 * 0 + 0 * 0 + 0 * 0 + 0 * 0) with 0 by ring.
  rewrite sqrt_0. lra.
Qed.

(** With the textbook conversions, [SetAttitude(C)] on a matrix that is not a
    rotation leaves a pair in which the matrix is not [quat2dcm] of the
    quaternion. *)
Example SetAttitudeDcm_zero_matrix :
  let s := SetAttitudeDcm textbook at_rest (M3 Zero3 Zero3 Zero3) in
  C_b_l_ s <> quat2dcm textbook (q_b_l_ s).
Proof.
  unfold at_rest, zero_storage. run_code.
  unfold textbook, dcm2quat_textbook, quat2dcm_textbook, Zero3.
  cbn [dcm2quat quat2dcm x0 x1 x2 q0 q1 q2 q3 row0 row1 row2].
  replace (1 + 0 + 0 + 0) with 1 by ring. rewrite sqrt_1.
  intros [= H _]. lra.
Qed.

(** ** C2: the velocity delta *)



(** Two of the three cross terms are components of the vector product
    [we x v]; the east one is the opposite of its component. *)
Lemma cross_terms_vector_product (we : Vector3d) (vn ve vd : R) :
  x0 (cross_terms we vn ve vd) = x1 we * vd - x2 we * ve /\
  x1 (cross_terms we vn ve vd) = - (x2 we * vn - x0 we * vd) /\
  x2 (cross_terms we vn ve vd) = x0 we * ve - x1 we * vn.
Proof. unfold cross_terms. cbn [x0 x1 x2]. repeat split; ring. Qed.

(** ** C3: the two branches of the attitude update *)

(** C3.  With [psi = (wb - C^T (w_ie_n + w_en_n)) * dt] and
    [gamma = 0.5 * |psi|], the quaternion after the step is the
    renormalised product of the matrix [qdot] by the quaternion before the
    step, where [qdot] is built from [cos gamma] and from [psi] scaled by
    [0.5 * sin gamma / gamma] when [gamma >= 1e-5] and by [0.5] when
    [gamma < 1e-5]. *)
Theorem Mechanize_attitude_branches
    (K : Constants) (A : Attitude) (s : Strapdown) (wb fb : Vector3d) (dt : R) :
  reachable K A s -> WGS84_E2 K < 1 ->
  let psi := rotation_increment K s wb dt in
  let gamma := half_angle K s wb dt in
  let q' := q_b_l_ (Mechanize K A s wb fb dt) in
  psi = vmuls (vsub wb (mulv3 (transpose (C_b_l_ s))
                          (vadd (earth_rate K (phi_ s))
                                (transport_rate K (phi_ s) (h_ s) (vn_ s) (ve_ s))))) dt /\
  gamma = 0.5 * norm3 psi /\
  (1e-5 <= gamma ->
   q' = normalized (mulv4 (qdot_matrix (cos gamma) (vmuls psi (0.5 * sin gamma / gamma)))
                          (q_b_l_ s))) /\
  (gamma < 1e-5 ->
   q' = normalized (mulv4 (qdot_matrix (cos gamma) (vmuls psi 0.5)) (q_b_l_ s))).
Proof.
  intros Hr He psi gamma q'. subst q'.
  rewrite (reachable_step_result K A s wb fb dt Hr He).
  unfold step_result. cbn [q_b_l_]. fold psi. fold gamma.
  split; [reflexivity | split; [reflexivity | split]]; intros Hg.
  - destruct (Rlt_dec gamma 1e-5) as [Hlt | _]; [lra | reflexivity].
  - destruct (Rlt_dec gamma 1e-5) as [_ | Hge]; [reflexivity | contradiction].
Qed.

Lemma Mechanize_attitude_branches_witness :
  reachable WGS84 textbook at_rest /\ WGS84_E2 WGS84 < 1 /\
  half_angle WGS84 at_rest Zero3 0.01
  = 0.5 * norm3 (rotation_increment WGS84 at_rest Zero3 0.01).
Proof.
  split; [exact at_rest_reachable | split; [exact WGS84_E2_lt_1 |]].
  exact (proj1 (proj2
    (Mechanize_attitude_branches WGS84 textbook at_rest Zero3 (V3 0 0 (-9.7803253359)) 0.01
       at_rest_reachable WGS84_E2_lt_1))).
Defined.

(** ** C4: trapezoidal position update *)

(** C4.  Latitude grows by [(vn + 0.5 dv_n) / (Rn + h) * dt], longitude by
    [(ve + 0.5 dv_e) / ((Re + h) cos phi) * dt] and altitude decreases by
    [(vd + 0.5 dv_d) * dt], with [Rn], [Re], [cos phi] and the velocity taken
    from the state before the step, [Re = R0 / sqrt(1 - e^2 sin^2 phi)] and
    [Rn = R0 (1 - e^2) / (1 - e^2 sin^2 phi)^(3/2)]; [v + 0.5 dv] is the mean
    of the velocity before and after the step. *)
Theorem Mechanize_position_trapezoidal
    (K : Constants) (A : Attitude) (s : Strapdown) (wb fb : Vector3d) (dt : R) :
  reachable K A s -> WGS84_E2 K < 1 ->
  let s' := Mechanize K A s wb fb dt in
  let dv := velocity_delta K s fb dt in
  let Re := WGS84_R0 K / sqrt (1 - WGS84_E2 K * (sin (phi_ s) * sin (phi_ s))) in
  let Rn := WGS84_R0 K * (1 - WGS84_E2 K)
            / Rpower (1 - WGS84_E2 K * (sin (phi_ s) * sin (phi_ s))) (3 / 2) in
  phi_ s' = phi_ s + (vn_ s + 0.5 * x0 dv) / (Rn + h_ s) * dt /\
  lam_ s' = lam_ s + (ve_ s + 0.5 * x1 dv) / ((Re + h_ s) * cos (phi_ s)) * dt /\
  h_ s' = h_ s - (vd_ s + 0.5 * x2 dv) * dt /\
  vn_ s + 0.5 * x0 dv = (vn_ s + vn_ s') / 2 /\
  ve_ s + 0.5 * x1 dv = (ve_ s + ve_ s') / 2 /\
  vd_ s + 0.5 * x2 dv = (vd_ s + vd_ s') / 2.
Proof.
  intros Hr He s' dv Re Rn. subst s' Re Rn.
  rewrite (reachable_step_result K A s wb fb dt Hr He).
  unfold step_result. cbn [phi_ lam_ h_ vn_ ve_ vd_]. fold dv.
  repeat split; try reflexivity; lra.
Qed.

Lemma Mechanize_position_trapezoidal_witness :
  reachable WGS84 textbook at_rest /\ WGS84_E2 WGS84 < 1 /\
  h_ (Mechanize WGS84 textbook at_rest Zero3 (V3 0 0 (-9.7803253359)) 0.01)
  = h_ at_rest
    - (vd_ at_rest
       + 0.5 * x2 (velocity_delta WGS84 at_rest (V3 0 0 (-9.7803253359)) 0.01)) * 0.01.
Proof.
  split; [exact at_rest_reachable | split; [exact WGS84_E2_lt_1 |]].
  exact (proj1 (proj2 (proj2
    (Mechanize_position_trapezoidal WGS84 textbook at_rest Zero3
       (V3 0 0 (-9.7803253359)) 0.01 at_rest_reachable WGS84_E2_lt_1)))).
Defined.

(** ** C5: gravity, Earth rate and transport rate of a step *)

(** C5.  The gravity, Earth-rate and transport-rate vectors stored by a step
    are those of the position and velocity before the step; the transport
    rate is [[ve/(Re+h), -vn/(Rn+h), -ve tan(phi)/(Re+h)]] and the cross
    terms of the velocity update are taken with [we = w_ie_n + 2 w_en_n]. *)
Theorem Mechanize_rates_before_update
    (K : Constants) (A : Attitude) (s : Strapdown) (wb fb : Vector3d) (dt : R) :
  reachable K A s -> WGS84_E2 K < 1 ->
  let s' := Mechanize K A s wb fb dt in
  let Re := transverse_radius K (phi_ s) in
  let Rn := meridian_radius K (phi_ s) in
  g_ s' = gravity K (phi_ s) (h_ s) /\
  w_ie_n_ s' = earth_rate K (phi_ s) /\
  w_en_n_ s' = V3 (ve_ s / (Re + h_ s)) (- vn_ s / (Rn + h_ s))
                  (- ve_ s * tan (phi_ s) / (Re + h_ s)) /\
  V3 (vn_ s') (ve_ s') (vd_ s')
    = vadd (V3 (vn_ s) (ve_ s) (vd_ s))
        (vmuls (vsub (vadd (mulv3 (C_b_l_ s) fb) (g_ s'))
                     (cross_terms (vadd (w_ie_n_ s') (smul 2 (w_en_n_ s')))
                                  (vn_ s) (ve_ s) (vd_ s))) dt).
Proof.
  intros Hr He s' Re Rn. subst s' Re Rn.
  rewrite (reachable_step_result K A s wb fb dt Hr He).
  unfold step_result. cbn [g_ w_ie_n_ w_en_n_ vn_ ve_ vd_].
  repeat split.
Qed.

Lemma Mechanize_rates_before_update_witness :
  reachable WGS84 textbook at_rest /\ WGS84_E2 WGS84 < 1 /\
  w_ie_n_ (Mechanize WGS84 textbook at_rest Zero3 (V3 0 0 (-9.7803253359)) 0.01)
  = earth_rate WGS84 (phi_ at_rest).
Proof.
  split; [exact at_rest_reachable | split; [exact WGS84_E2_lt_1 |]].
  exact (proj1 (proj2
    (Mechanize_rates_before_update WGS84 textbook at_rest Zero3
       (V3 0 0 (-9.7803253359)) 0.01 at_rest_reachable WGS84_E2_lt_1))).
Defined.

(** ** C6: static equilibrium *)






(** ** C7: the gravity vector *)

(** C7.  On an object built by a constructor, [GravityVector] leaves an east
    component of zero, a north component of [-8.08e-9 * h * sin(2 phi)]
    (zero at [h = 0]) and a down component of the stored [g0] times the
    correction factor; inside [Mechanize] the stored [g0] is the normal
    gravity [g0(phi)] of the latitude before the step. *)
Theorem GravityVector_components
    (K : Constants) (A : Attitude) (s : Strapdown) :
  reachable K A s ->
  let g := g_ (GravityVector K s) in
  x1 g = 0 /\
  x0 g = -8.08e-9 * h_ s * sin (2 * phi_ s) /\
  (h_ s = 0 -> x0 g = 0) /\
  x2 g = g0_ s *
         (1 - (2 * h_ s / WGS84_R0 K) *
                (1 + WGS84_F K * (1 - 2 * sLsq_ s) +
                 WGS84_OMEGA K * WGS84_OMEGA K * WGS84_R0 K * WGS84_R0 K * WGS84_RP K
                   / WGS84_MU K)
            + 3 * ((h_ s / WGS84_R0 K) * (h_ s / WGS84_R0 K))) /\
  (forall wb fb dt,
     g_ (Mechanize K A s wb fb dt)
     = V3 (-8.08e-9 * h_ s * sin (2 * phi_ s)) 0
          (normal_gravity K (phi_ s) * gravity_correction K (phi_ s) (h_ s))).
Proof.
  intros Hr g. subst g.
  pose proof (reachable_ctor_inv K A s Hr) as Hi.
  split; [| split; [| split; [| split]]].
  - destruct Hi as (_ & _ & Hg & _). destruct s. run_code. exact Hg.
  - destruct s. run_code. literals. reflexivity.
  - intros Hh. destruct s. run_code. cbn [h_] in Hh. rewrite Hh. ring.
  - destruct Hi as (_ & Hw & _ & _). destruct s. run_code. cbn [wR0sqRpMu_] in Hw.
    rewrite Hw. literals. reflexivity.
  - intros wb fb dt. apply (Mechanize_g K A s wb fb dt Hi).
Qed.

Lemma GravityVector_components_witness :
  reachable WGS84 textbook at_rest /\ x1 (g_ (GravityVector WGS84 at_rest)) = 0.
Proof.
  split; [exact at_rest_reachable |].
  exact (proj1 (GravityVector_components WGS84 textbook at_rest at_rest_reachable)).
Defined.

(** ** C9: divisors *)

(** C9, amended.  On an object built by a constructor, with [e^2 < 1] and
    [R0 <> 0], if [cos phi <> 0], [Rn + h <> 0], [Re + h <> 0] and the
    quaternion is not the zero vector, every division of [Mechanize] has a
    non-zero divisor: the checked run succeeds and returns what [Mechanize]
    returns. *)
Theorem Mechanize_divisors_nonzero
    (K : Constants) (A : Attitude) (s : Strapdown) (wb fb : Vector3d) (dt : R) :
  reachable K A s -> WGS84_E2 K < 1 -> WGS84_R0 K <> 0 ->
  cos (phi_ s) <> 0 ->
  meridian_radius K (phi_ s) + h_ s <> 0 ->
  transverse_radius K (phi_ s) + h_ s <> 0 ->
  q_b_l_ s <> V4 0 0 0 0 ->
  Mechanize_checked K A s wb fb dt = Some (Mechanize K A s wb fb dt).
Proof.
  intros Hr. apply Mechanize_checked_total, reachable_ctor_inv with (1 := Hr).
Qed.

Lemma Mechanize_divisors_nonzero_witness :
  Mechanize_checked WGS84 textbook at_rest Zero3 (V3 0 0 (-9.7803253359)) 0.01
  = Some (Mechanize WGS84 textbook at_rest Zero3 (V3 0 0 (-9.7803253359)) 0.01).
Proof.
  destruct equator_divisors as (Hc & Hn & Ht).
  destruct at_rest_position as (Hp & _ & Hh & _).
  apply (Mechanize_divisors_nonzero WGS84 textbook at_rest);
    [ exact at_rest_reachable | exact WGS84_E2_lt_1 | exact WGS84_R0_nz
    | rewrite Hp; exact Hc | rewrite Hp, Hh; exact Hn | rewrite Hp, Hh; exact Ht
    | exact at_rest_q_nonzero ].
Defined.

(** C9 as stated fails on an object whose attitude was never set: the
    three conditions on latitude and altitude hold, and the renormalisation
    [q /= q.norm()] divides by zero. *)
Lemma Mechanize_attitude_unset_zero_divisor :
  cos (phi_ attitude_unset) <> 0 /\
  meridian_radius WGS84 (phi_ attitude_unset) + h_ attitude_unset <> 0 /\
  transverse_radius WGS84 (phi_ attitude_unset) + h_ attitude_unset <> 0 /\
  Mechanize_checked WGS84 textbook attitude_unset Zero3 (V3 0 0 (-9.7803253359)) 0.01
  = None.
Proof.
  destruct attitude_unset_position as (-> & ->).
  destruct equator_divisors as (Hc & Hn & Ht).
  repeat (split; [assumption |]).
  apply Mechanize_checked_zero_quaternion, attitude_unset_q.
Qed.

End StrapdownProofs.

(** * Properties of the simulation driver *)

Module SimDriverProofs.
Import test_sim_ins.
Local Open Scope Z_scope.

Lemma int_not_zero (a : Z) : int_not a = 0 <-> a = -1.
Proof. unfold int_not, Z.lnot. lia. Qed.

Lemma int_rem_20_range (i : Z) : 0 <= i -> 0 <= int_rem i 20 <= 19.
Proof.
  intros Hi. unfold int_rem. rewrite Z.rem_mod_nonneg by lia.
  pose proof (Z.mod_pos_bound i 20). lia.
Qed.

Lemma gnss_guard_nonneg (i : Z) : 0 <= i -> gnss_guard i = true.
Proof.
  intros Hi. unfold gnss_guard, truthy.
  apply negb_true_iff, Z.eqb_neq. rewrite int_not_zero.
  pose proof (int_rem_20_range i Hi). lia.
Qed.

Lemma calls_app (c : call) (l1 l2 : list call) :
  calls c (l1 ++ l2) = (calls c l1 + calls c l2)%nat.
Proof. apply count_occ_app. Qed.

Lemma iteration_nonneg (i : Z) :
  0 <= i ->
  iteration i =
    (if i =? 0 then [Initialize] else []) ++
    [ImuModel; ClockModel; Mechanize; Propagate;
     MeasurementModel; GnssUpdate; WriteResult; PrintResult].
Proof. intros Hi. unfold iteration. rewrite gnss_guard_nonneg by assumption. reflexivity. Qed.

Lemma main_loop_gnss_calls (records : nat) (i : Z) :
  0 <= i ->
  calls GnssUpdate (main_loop records i) = records /\
  calls WriteResult (main_loop records i) = records /\
  calls PrintResult (main_loop records i) = records.
Proof.
  revert i. induction records as [| rest IH]; intros i Hi.
  - repeat split.
  - cbn [main_loop]. rewrite !calls_app, iteration_nonneg by assumption.
    destruct (IH (i + 1)) as (Hg & Hw & Hp); [lia |].
    rewrite Hg, Hw, Hp.
    destruct (i =? 0); repeat split.
Qed.

(** C10.  For every non-negative counter [i], [i % 20] lies in [0..19], its
    bitwise complement is not zero and the guard [~(i % 20)] is true; the
    GNSS branch ([GnssUpdate], the write of the result record and the
    console print) runs in every iteration of the loop, so that a run over
    any number of records makes as many GNSS updates, writes and prints as
    it reads records. *)
Theorem gnss_branch_every_iteration (i : Z) :
  0 <= i ->
  0 <= int_rem i 20 <= 19 /\
  int_not (int_rem i 20) <> 0 /\
  gnss_guard i = true /\
  iteration i =
    (if i =? 0 then [Initialize] else []) ++
    [ImuModel; ClockModel; Mechanize; Propagate;
     MeasurementModel; GnssUpdate; WriteResult; PrintResult] /\
  (forall records : nat,
     calls GnssUpdate (main_loop records i) = records /\
     calls WriteResult (main_loop records i) = records /\
     calls PrintResult (main_loop records i) = records).
Proof.
  intros Hi. pose proof (int_rem_20_range i Hi) as Hr.
  split; [exact Hr | split; [| split; [| split]]].
  - rewrite int_not_zero. lia.
  - apply gnss_guard_nonneg, Hi.
  - apply iteration_nonneg, Hi.
  - intros records. apply main_loop_gnss_calls, Hi.
Qed.

Lemma gnss_branch_every_iteration_witness :
  0 <= 7 /\ gnss_guard 7 = true /\ calls GnssUpdate (main_loop 40 7) = 40%nat.
Proof.
  assert (H : 0 <= 7) by lia.
  split; [exact H |].
  pose proof (gnss_branch_every_iteration 7 H) as (_ & _ & Hg & _ & Hl).
  split; [exact Hg | exact (proj1 (Hl 40%nat))].
Defined.

End SimDriverProofs.

(** * Properties of the Gauss-Newton solver *)

Module LeastSquaresProofs.
Import mathcomp.boot.boot mathcomp.order.order mathcomp.algebra.algebra.
Import GRing.Theory Num.Theory.
Import least_squares.
Local Open Scope ring_scope.

Section Facts.
Variable F : rcfType.
Variable unit_vector_rate : 'cV[F]_3 -> 'cV[F]_3 -> 'cV[F]_3.
Variable design_rows : Prediction F -> 'rV[F]_8 * 'rV[F]_8.
Variable threshold : F.
Variable n : nat.
Variables sv_pos sv_vel : 'M[F]_(3, n).
Variables psr psrdot psr_var psrdot_var : 'cV[F]_n.

Local Abbreviation info := (information unit_vector_rate design_rows sv_pos sv_vel psr_var psrdot_var).
Local Abbreviation upd :=
  (update unit_vector_rate design_rows sv_pos sv_vel psr psrdot psr_var psrdot_var).
Local Abbreviation loop :=
  (GaussNewton_loop unit_vector_rate design_rows threshold
     sv_pos sv_vel psr psrdot psr_var psrdot_var).
Local Abbreviation est :=
  (estimate unit_vector_rate design_rows threshold
     sv_pos sv_vel psr psrdot psr_var psrdot_var).

(** With fewer than 4 satellites the design matrix has fewer than 8 rows
    and the 8x8 information matrix cannot have full rank. *)
Lemma information_singular (x : 'cV[F]_8) : (n < 4)%N -> info x \notin unitmx.
Proof.
  move=> Hn. rewrite -row_full_unit /row_full /information.
  apply/negP => /eqP Hr.
  set H := design unit_vector_rate design_rows sv_pos sv_vel x.
  have H1 := mxrankM_maxr (H^T *m weights psr_var psrdot_var) H.
  have H2 := rank_leq_row H.
  have H3 := leq_trans H1 H2.
  rewrite Hr in H3.
  have H4 : (n + n < 8)%N by rewrite addnn -muln2 (@ltn_pmul2r 2 n 4).
  by rewrite ltnNge H3 in H4.
Qed.

Lemma loop_singular (k : nat) (x : 'cV[F]_8) (P : 'M[F]_8) :
  info x \notin unitmx -> loop k x P = (false, x, P).
Proof. by case: k => [|k] //= ->. Qed.

Lemma loop_true (k : nat) (x : 'cV[F]_8) (P : 'M[F]_8) (x' : 'cV[F]_8) (P' : 'M[F]_8) :
  loop k x P = (true, x', P') ->
  exists j xj, [/\ (j < k)%N, est j x = Some xj, info xj \in unitmx
                   & norm (upd xj) < threshold]
               /\ x' = xj + upd xj /\ P' = invmx (info xj).
Proof.
  elim: k x P => [|k IH] x P //=.
  case Hu: (info x \in unitmx) => //=.
  case Hc: (norm (upd x) < threshold).
  - move=> [<- <-]. by exists 0%N, x; split.
  - move=> /IH [j [xj [[Hj He Hxu Hxc] HxP]]].
    exists j.+1, xj; split=> //; split=> //=. by rewrite Hu Hc.
Qed.

Lemma loop_false_singular (k j : nat) (x xj : 'cV[F]_8) (P : 'M[F]_8) :
  (j < k)%N -> est j x = Some xj -> info xj \notin unitmx -> (loop k x P).1.1 = false.
Proof.
  elim: k j x P => [|k IH] j x P //=.
  case: j => [|j] /=.
  - by move=> _ [->] ->.
  - rewrite ltnS => Hj.
    case Hu: (info x \in unitmx) => //=.
    case Hc: (norm (upd x) < threshold) => //=.
    exact: IH.
Qed.

Lemma loop_false_cap (k : nat) (x : 'cV[F]_8) (P : 'M[F]_8) :
  (forall j xj, (j < k)%N -> est j x = Some xj -> ~~ (norm (upd xj) < threshold)) ->
  (loop k x P).1.1 = false.
Proof.
  elim: k x P => [|k IH] x P //= Hall.
  case Hu: (info x \in unitmx) => //=.
  have /negbTE Hc := Hall 0%N x (ltn0Sn k) (erefl _).
  rewrite Hc. apply: IH => j xj Hj He.
  apply: (Hall j.+1 xj) => //=. by rewrite Hu Hc.
Qed.

Variable max_iterations : nat.

(** C8.  [GaussNewton] reports its outcome through the returned boolean.
    It returns [true] only on convergence: some iteration below the cap had
    an invertible information matrix and an update of norm below the
    threshold, and the returned estimate and covariance are those of that
    iteration.  It returns [false] when no iteration below the cap has an
    update norm below the threshold, when the information matrix of an
    iteration it reaches is singular, and in particular when there are
    fewer than 4 satellites. *)
Theorem GaussNewton_status (x : 'cV[F]_8) (P : 'M[F]_8) :
  let r := GaussNewton unit_vector_rate design_rows threshold max_iterations
             x P sv_pos sv_vel psr psrdot psr_var psrdot_var in
  [/\ r.1.1 = true ->
        exists j xj,
          [/\ (j < max_iterations)%N, est j x = Some xj, info xj \in unitmx
             & norm (upd xj) < threshold]
          /\ r.1.2 = xj + upd xj /\ r.2 = invmx (info xj),
      (forall j xj, (j < max_iterations)%N -> est j x = Some xj ->
                    ~~ (norm (upd xj) < threshold)) ->
        r.1.1 = false,
      (forall j xj, (j < max_iterations)%N -> est j x = Some xj ->
                    info xj \notin unitmx -> r.1.1 = false)
    & (n < 4)%N -> r.1.1 = false].
Proof.
  rewrite /GaussNewton /=. split.
  - case Hr: (loop max_iterations x P) => [[b x'] P'] /= Hb.
    rewrite Hb in Hr. move: Hr. exact: loop_true.
  - exact: loop_false_cap.
  - move=> j xj. exact: loop_false_singular.
  - move=> Hn. by rewrite loop_singular // information_singular.
Qed.

End Facts.
End LeastSquaresProofs.

(** * Further properties of the strapdown integrator *)

Module StrapdownMore.
Import Eigen navtools sturdins StrapdownProofs.
Local Open Scope R_scope.

(** ** Sequences of steps *)

Lemma unit_norm_nonzero (q : Vector4d) : norm4 q = 1 -> q <> V4 0 0 0 0.
Proof.
  intros Hn ->. unfold norm4, dot4 in Hn. cbn [q0 q1 q2 q3] in Hn.
  replace (0 * 0 + 0 * 0 + 0 * 0 + 0 * 0) with 0 in Hn by ring.
  rewrite sqrt_0 in Hn. lra.
Qed.

(** X1.  After any non-empty sequence of [Mechanize] calls on an object whose
    quaternion is not the zero vector, the quaternion has unit norm. *)
Theorem Mechanize_all_unit_norm
    (K : Constants) (A : Attitude) (imu : list (Vector3d * Vector3d * R))
    (s : Strapdown) :
  q_b_l_ s <> V4 0 0 0 0 -> imu <> [] ->
  norm4 (q_b_l_ (Mechanize_all K A s imu)) = 1.
Proof.
  revert s. induction imu as [| [[wb fb] dt] rest IH]; intros s Hq Hne.
  - contradiction Hne. reflexivity.
  - cbn [Mechanize_all].
    pose proof (Mechanize_unit_norm K A s wb fb dt Hq) as H1.
    destruct rest as [| sample rest'].
    + exact H1.
    + apply IH; [apply unit_norm_nonzero, H1 | discriminate].
Qed.

Lemma Mechanize_all_unit_norm_witness :
  norm4 (q_b_l_ (Mechanize_all WGS84 textbook at_rest
                   [(Zero3, V3 0 0 (-9.7803253359), 0.01);
                    (V3 0 0 0.1, V3 0.2 0 (-9.7803253359), 0.01)])) = 1.
Proof.
  apply Mechanize_all_unit_norm; [exact at_rest_q_nonzero | discriminate].
Defined.

(** ** The update quaternion *)

Lemma divs4_one (q : Vector4d) : divs4 q 1 = q.
Proof. destruct q. unfold divs4. cbn [q0 q1 q2 q3]. f_equal; field. Qed.

Lemma norm4_one_dot4 (q : Vector4d) : norm4 q = 1 -> dot4 q q = 1.
Proof.
  intros Hn. pose proof (sqrt_sqrt _ (dot4_nonneg q)) as Hs.
  fold (norm4 q) in Hs. rewrite Hn in Hs. lra.
Qed.

(** X2.  In the exact branch the update quaternion has unit norm: on a unit
    quaternion the product [qdot * q] already has unit norm and the
    renormalisation changes nothing. *)
Theorem Mechanize_exact_branch_keeps_norm
    (K : Constants) (A : Attitude) (s : Strapdown) (wb fb : Vector3d) (dt : R) :
  reachable K A s -> WGS84_E2 K < 1 ->
  1e-5 <= half_angle K s wb dt ->
  norm4 (q_b_l_ s) = 1 ->
  let psi := rotation_increment K s wb dt in
  let gamma := half_angle K s wb dt in
  let v := mulv4 (qdot_matrix (cos gamma) (rodrigues_form psi gamma)) (q_b_l_ s) in
  norm4 v = 1 /\ q_b_l_ (Mechanize K A s wb fb dt) = v.
Proof.
  intros Hr He Hg Hn psi gamma v.
  assert (Hv : norm4 v = 1).
  { unfold norm4, v. rewrite dot4_mulv4_qdot, (norm4_one_dot4 _ Hn).
    unfold rodrigues_form, gamma, half_angle. fold psi.
    rewrite rodrigues_update_unit.
    - rewrite Rmult_1_l. apply sqrt_1.
    - unfold half_angle in Hg. fold psi in Hg. lra. }
  split; [exact Hv |].
  rewrite (reachable_step_result K A s wb fb dt Hr He).
  unfold step_result. cbn [q_b_l_]. fold psi. fold gamma.
  destruct (Rlt_dec gamma 1e-5) as [Hlt | _]; [unfold gamma in Hlt; lra |].
  fold v. unfold normalized. rewrite Hv. apply divs4_one.
Qed.

(** [sin^2 x <= x^2] on the range of the first-order branch. *)
Lemma sin_sqr_le (x : R) : 0 <= x -> x < 1e-5 -> sin x * sin x <= x * x.
Proof.
  intros H0 H1.
  assert (Hpi : x <= PI) by (pose proof PI2_1; lra).
  pose proof (sin_ge_0 x H0 Hpi) as Hs.
  destruct (Req_dec x 0) as [-> | Hx].
  - rewrite sin_0. lra.
  - assert (Hlt : sin x < x) by (apply sin_lt_x; lra). nra.
Qed.

(** X3.  In the first-order branch the product [qdot * q] has squared norm
    [(cos^2 gamma + gamma^2) |q|^2], between [|q|^2] and
    [(1 + gamma^2) |q|^2]: the update never shrinks the quaternion, and the
    renormalisation removes the excess. *)
Theorem Mechanize_first_order_branch_norm
    (K : Constants) (A : Attitude) (s : Strapdown) (wb fb : Vector3d) (dt : R) :
  reachable K A s -> WGS84_E2 K < 1 ->
  half_angle K s wb dt < 1e-5 ->
  let psi := rotation_increment K s wb dt in
  let gamma := half_angle K s wb dt in
  let v := mulv4 (qdot_matrix (cos gamma) (taylor_form psi)) (q_b_l_ s) in
  dot4 v v = (cos gamma * cos gamma + gamma * gamma) * dot4 (q_b_l_ s) (q_b_l_ s) /\
  dot4 (q_b_l_ s) (q_b_l_ s) <= dot4 v v <= (1 + gamma * gamma) * dot4 (q_b_l_ s) (q_b_l_ s) /\
  q_b_l_ (Mechanize K A s wb fb dt) = normalized v.
Proof.
  intros Hr He Hg psi gamma v.
  pose proof (norm3_nonneg psi) as Hn. pose proof (norm3_sqr psi) as Hs.
  assert (Hgam : gamma = 0.5 * norm3 psi) by reflexivity.
  assert (Hd : dot3 (taylor_form psi) (taylor_form psi) = gamma * gamma).
  { unfold taylor_form. rewrite dot3_vmuls, <- Hs, Hgam. lra. }
  assert (Hv : dot4 v v
               = (cos gamma * cos gamma + gamma * gamma) * dot4 (q_b_l_ s) (q_b_l_ s)).
  { unfold v. rewrite dot4_mulv4_qdot, Hd. reflexivity. }
  split; [exact Hv | split].
  - rewrite Hv. pose proof (dot4_nonneg (q_b_l_ s)) as Hq.
    assert (H0 : 0 <= gamma) by lra.
    pose proof (sin_sqr_le gamma H0 Hg) as Hsin.
    pose proof (sin2_cos2 gamma) as Hsc. unfold Rsqr in Hsc.
    assert (Hc : 0 <= cos gamma * cos gamma) by nra.
    split; nra.
  - rewrite (reachable_step_result K A s wb fb dt Hr He).
    unfold step_result. cbn [q_b_l_]. fold psi. fold gamma.
    destruct (Rlt_dec gamma 1e-5) as [_ | Hge]; [reflexivity | contradiction].
Qed.

(** X4.  As a quaternion product, the update multiplies the current quaternion
    on the right by the update quaternion [(cos gamma, psi')]. *)
Theorem Mechanize_right_multiplies
    (K : Constants) (A : Attitude) (s : Strapdown) (wb fb : Vector3d) (dt : R) :
  reachable K A s -> WGS84_E2 K < 1 ->
  let u := update_vector (rotation_increment K s wb dt) in
  q_b_l_ (Mechanize K A s wb fb dt)
  = normalized (qmul (q_b_l_ s) (V4 (cos (half_angle K s wb dt)) (x0 u) (x1 u) (x2 u))).
Proof.
  intros Hr He u.
  rewrite (reachable_step_result K A s wb fb dt Hr He).
  unfold step_result. cbn [q_b_l_].
  rewrite mulv4_qdot_hamilton. reflexivity.
Qed.

(** ** What a step reads *)

(** X5.  A step reads none of the cached members: two objects that agree on
    position, velocity, attitude, the constructor members and the east
    components of the gravity and Earth-rate vectors give the same object
    after [Mechanize]. *)
Theorem Mechanize_ignores_cached_members
    (K : Constants) (A : Attitude) (s1 s2 : Strapdown) (wb fb : Vector3d) (dt : R) :
  same_inputs s1 s2 ->
  Mechanize K A s1 wb fb dt = Mechanize K A s2 wb fb dt.
Proof.
  unfold same_inputs. destruct s1, s2.
  cbn [phi_ lam_ h_ vn_ ve_ vd_ q_b_l_ C_b_l_ X1ME2_ wR0sqRpMu_ g_ w_ie_n_].
  intros (-> & -> & -> & -> & -> & -> & -> & -> & -> & -> & Hg & Hw).
  run_code. rewrite Hg, Hw. reflexivity.
Qed.

(** X6.  Shifting the longitude of the object shifts the longitude after the step
    by the same amount and changes nothing else. *)
Theorem Mechanize_longitude_shift
    (K : Constants) (A : Attitude) (s : Strapdown) (wb fb : Vector3d) (dt d : R) :
  Mechanize K A (set_lam_ s (lam_ s + d)) wb fb dt
  = set_lam_ (Mechanize K A s wb fb dt) (lam_ (Mechanize K A s wb fb dt) + d).
Proof.
  destruct s. run_code. f_equal. ring.
Qed.

(** ** The object at rest, for the witnesses *)

Lemma transport_rate_at_rest (K : Constants) (phi h : R) :
  transport_rate K phi h 0 0 = Zero3.
Proof. unfold transport_rate, Zero3. f_equal; unfold Rdiv; ring. Qed.

Lemma at_rest_increment (wb : Vector3d) (dt : R) :
  rotation_increment WGS84 at_rest wb dt
  = V3 ((x0 wb - WGS84_OMEGA WGS84) * dt) (x1 wb * dt) (x2 wb * dt).
Proof.
  unfold rotation_increment.
  destruct at_rest_position as (-> & _ & -> & -> & -> & _).
  rewrite at_rest_C, transport_rate_at_rest.
  unfold earth_rate. rewrite cos_0, sin_0.
  unfold mulv3, transpose, dot3, vadd, vsub, vmuls, Zero3.
  cbn [x0 x1 x2 row0 row1 row2]. f_equal; ring.
Qed.

Lemma at_rest_unit : norm4 (q_b_l_ at_rest) = 1.
Proof.
  rewrite at_rest_q. unfold norm4, dot4. cbn [q0 q1 q2 q3].
  replace (1 * 1 + 0 * 0 + 0 * 0 + 0 * 0) with 1 by ring. apply sqrt_1.
Qed.

Lemma at_rest_large_angle : 1e-5 <= half_angle WGS84 at_rest (V3 0 1 0) 1.
Proof.
  unfold half_angle. rewrite at_rest_increment. cbn [x0 x1 x2].
  unfold norm3, dot3. cbn [x0 x1 x2].
  set (w := WGS84_OMEGA WGS84).
  assert (H1 : 1 <= (0 - w) * 1 * ((0 - w) * 1) + 1 * 1 * (1 * 1) + 0 * 1 * (0 * 1)) by nra.
  pose proof (sqrt_le_1_alt _ _ H1) as H2. rewrite sqrt_1 in H2. lra.
Qed.

Lemma at_rest_small_angle : half_angle WGS84 at_rest Zero3 0.01 < 1e-5.
Proof.
  unfold half_angle. rewrite at_rest_increment. unfold Zero3. cbn [x0 x1 x2].
  unfold norm3, dot3. cbn [x0 x1 x2]. cbn [WGS84_OMEGA WGS84].
  match goal with |- 0.5 * sqrt ?d < _ => set (x := d) end.
  assert (H1 : 0 <= x < 2e-5 * 2e-5) by (unfold x; split; lra).
  pose proof (sqrt_lt_1_alt _ _ H1) as H2.
  rewrite (sqrt_square 2e-5) in H2 by lra. lra.
Qed.

Lemma Mechanize_exact_branch_keeps_norm_witness :
  norm4 (q_b_l_ (Mechanize WGS84 textbook at_rest (V3 0 1 0) (V3 0 0 (-9.7803253359)) 1))
  = 1.
Proof.
  destruct (Mechanize_exact_branch_keeps_norm WGS84 textbook at_rest (V3 0 1 0)
              (V3 0 0 (-9.7803253359)) 1 at_rest_reachable WGS84_E2_lt_1
              at_rest_large_angle at_rest_unit) as [Hv Hq].
  rewrite Hq. exact Hv.
Defined.

Lemma Mechanize_first_order_branch_norm_witness :
  q_b_l_ (Mechanize WGS84 textbook at_rest Zero3 (V3 0 0 (-9.7803253359)) 0.01)
  = normalized
      (mulv4 (qdot_matrix (cos (half_angle WGS84 at_rest Zero3 0.01))
                (taylor_form (rotation_increment WGS84 at_rest Zero3 0.01)))
             (q_b_l_ at_rest)).
Proof.
  exact (proj2 (proj2
    (Mechanize_first_order_branch_norm WGS84 textbook at_rest Zero3
       (V3 0 0 (-9.7803253359)) 0.01 at_rest_reachable WGS84_E2_lt_1
       at_rest_small_angle))).
Defined.

Lemma Mechanize_right_multiplies_witness :
  q_b_l_ (Mechanize WGS84 textbook at_rest Zero3 (V3 0 0 (-9.7803253359)) 0.01)
  = normalized
      (qmul (q_b_l_ at_rest)
         (V4 (cos (half_angle WGS84 at_rest Zero3 0.01))
             (x0 (update_vector (rotation_increment WGS84 at_rest Zero3 0.01)))
             (x1 (update_vector (rotation_increment WGS84 at_rest Zero3 0.01)))
             (x2 (update_vector (rotation_increment WGS84 at_rest Zero3 0.01))))).
Proof.
  exact (Mechanize_right_multiplies WGS84 textbook at_rest Zero3
           (V3 0 0 (-9.7803253359)) 0.01 at_rest_reachable WGS84_E2_lt_1).
Defined.

Lemma same_inputs_caches (s : Strapdown) (a b : R) (w : Vector3d) :
  same_inputs s (set_w_en_n_ (set_g0_ (set_sL_ s a) b) w).
Proof. destruct s. unfold same_inputs. run_code. repeat split. Qed.

Lemma Mechanize_ignores_cached_members_witness :
  Mechanize WGS84 textbook at_rest Zero3 (V3 0 0 (-9.7803253359)) 0.01
  = Mechanize WGS84 textbook (set_w_en_n_ (set_g0_ (set_sL_ at_rest 5) 7) (V3 1 2 3))
      Zero3 (V3 0 0 (-9.7803253359)) 0.01.
Proof.
  apply Mechanize_ignores_cached_members, same_inputs_caches.
Defined.

(** ** Divisions *)

Lemma norm4_nonzero_inv (c : R) (p : Vector3d) (q : Vector4d) :
  norm4 (mulv4 (qdot_matrix c p) q) <> 0 -> q <> V4 0 0 0 0.
Proof. intros Hn ->. apply Hn, norm4_mulv4_zero. Qed.

(** X7.  On an object built by a constructor, with [e^2 < 1], no division of
    [Mechanize] has a zero divisor exactly when [R0 <> 0], [cos phi <> 0],
    [Rn + h <> 0], [Re + h <> 0] and the quaternion is not the zero vector. *)
Theorem Mechanize_checked_succeeds_iff
    (K : Constants) (A : Attitude) (s : Strapdown) (wb fb : Vector3d) (dt : R) :
  reachable K A s -> WGS84_E2 K < 1 ->
  (Mechanize_checked K A s wb fb dt <> None <->
   WGS84_R0 K <> 0 /\ cos (phi_ s) <> 0 /\
   meridian_radius K (phi_ s) + h_ s <> 0 /\
   transverse_radius K (phi_ s) + h_ s <> 0 /\
   q_b_l_ s <> V4 0 0 0 0).
Proof.
  intros Hr He. pose proof (reachable_ctor_inv K A s Hr) as Hi. split.
  - destruct Hi as (Hx & _). destruct s. cbn [X1ME2_ phi_ h_ q_b_l_] in *. subst.
    rewrite <- Re_code, <- (Rn_code K _ He).
    run_checked.
    repeat (case_div; try (intros Hf; exfalso; apply Hf; reflexivity));
      intros _; repeat split; try assumption;
      match goal with H : norm4 _ <> 0 |- _ => apply (norm4_nonzero_inv _ _ _ H) end.
  - intros (HR0 & Hc & Hn & Ht & Hq).
    rewrite (Mechanize_checked_total K A s wb fb dt Hi He HR0 Hc Hn Ht Hq). discriminate.
Qed.

Lemma Mechanize_checked_succeeds_iff_witness :
  Mechanize_checked WGS84 textbook attitude_unset Zero3 (V3 0 0 (-9.7803253359)) 0.01
    <> None <->
  WGS84_R0 WGS84 <> 0 /\ cos (phi_ attitude_unset) <> 0 /\
  meridian_radius WGS84 (phi_ attitude_unset) + h_ attitude_unset <> 0 /\
  transverse_radius WGS84 (phi_ attitude_unset) + h_ attitude_unset <> 0 /\
  q_b_l_ attitude_unset <> V4 0 0 0 0.
Proof.
  apply (Mechanize_checked_succeeds_iff WGS84 textbook attitude_unset).
  - unfold attitude_unset. apply reach_SetVelocity, reach_SetPosition, reach_default.
  - exact WGS84_E2_lt_1.
Defined.



(** ** A step of zero duration *)

Lemma norm3_vmuls_zero (v : Vector3d) : norm3 (vmuls v 0) = 0.
Proof.
  unfold norm3. rewrite dot3_vmuls.
  replace (0 * 0 * dot3 v v) with 0 by ring. apply sqrt_0.
Qed.

Lemma vmuls_zero_half (v : Vector3d) : vmuls (vmuls v 0) 0.5 = Zero3.
Proof. unfold vmuls, Zero3. cbn [x0 x1 x2]. f_equal; ring. Qed.

Lemma mulv4_identity (q : Vector4d) : mulv4 (qdot_matrix 1 Zero3) q = q.
Proof.
  destruct q. unfold mulv4, qdot_matrix, dot4, Zero3.
  cbn [q0 q1 q2 q3 x0 x1 x2 r0 r1 r2 r3]. f_equal; ring.
Qed.

Lemma Mechanize_zero_dt_q
    (K : Constants) (A : Attitude) (s : Strapdown) (wb fb : Vector3d) :
  q_b_l_ (Mechanize K A s wb fb 0) = normalized (q_b_l_ s).
Proof.
  destruct s. run_code.
  match goal with |- context [vmuls ?X 0] => set (v := X) end.
  rewrite norm3_vmuls_zero, Rmult_0_r, cos_0.
  destruct (Rlt_dec 0 1e-5) as [_ | Hn]; [| exfalso; apply Hn; lra].
  rewrite vmuls_zero_half, mulv4_identity. reflexivity.
Qed.

(** X9.  With [dt = 0], when no division has a zero divisor, [Mechanize] leaves
    position and velocity unchanged and only renormalises the quaternion; a
    unit quaternion is unchanged. *)
Theorem Mechanize_zero_dt
    (K : Constants) (A : Attitude) (s s' : Strapdown) (wb fb : Vector3d) :
  Mechanize_checked K A s wb fb 0 = Some s' ->
  phi_ s' = phi_ s /\ lam_ s' = lam_ s /\ h_ s' = h_ s /\
  vn_ s' = vn_ s /\ ve_ s' = ve_ s /\ vd_ s' = vd_ s /\
  q_b_l_ s' = normalized (q_b_l_ s) /\
  (norm4 (q_b_l_ s) = 1 -> q_b_l_ s' = q_b_l_ s).
Proof.
  intros Hc. apply Mechanize_checked_sound in Hc. subst s'.
  assert (Hq := Mechanize_zero_dt_q K A s wb fb).
  repeat split; try exact Hq.
  1-6: destruct s; run_code; unfold Rdiv; ring.
  intros Hn. rewrite Hq. unfold normalized. rewrite Hn. apply divs4_one.
Qed.

Lemma Mechanize_zero_dt_witness :
  exists s', Mechanize_checked WGS84 textbook at_rest Zero3 (V3 0 0 (-9.7803253359)) 0
             = Some s' /\ q_b_l_ s' = q_b_l_ at_rest.
Proof.
  destruct equator_divisors as (Hc & Hn & Ht).
  destruct at_rest_position as (Hp & _ & Hh & _).
  assert (Hrun : Mechanize_checked WGS84 textbook at_rest Zero3 (V3 0 0 (-9.7803253359)) 0
                 = Some (Mechanize WGS84 textbook at_rest Zero3 (V3 0 0 (-9.7803253359)) 0)).
  { apply Mechanize_checked_total;
      [ apply reachable_ctor_inv with (A := textbook), at_rest_reachable
      | exact WGS84_E2_lt_1 | exact WGS84_R0_nz
      | rewrite Hp; exact Hc | rewrite Hp, Hh; exact Hn | rewrite Hp, Hh; exact Ht
      | exact at_rest_q_nonzero ]. }
  eexists. split; [exact Hrun |].
  exact (proj2 (proj2 (proj2 (proj2 (proj2 (proj2 (proj2
    (Mechanize_zero_dt WGS84 textbook at_rest _ Zero3 (V3 0 0 (-9.7803253359)) Hrun)))))))
    at_rest_unit).
Defined.

(** ** Bounds on the radii of curvature and on normal gravity *)

Section Bounds.
Context (K : Constants).
Hypothesis He0 : 0 <= WGS84_E2 K.
Hypothesis He1 : WGS84_E2 K < 1.

Lemma ecc_term_bounds (phi : R) : 1 - WGS84_E2 K <= ecc_term K phi <= 1.
Proof.
  unfold ecc_term. pose proof (SIN_bound phi) as [Hlo Hhi].
  assert (Hs : 0 <= sin phi * sin phi <= 1) by nra. nra.
Qed.

Lemma sqrt_ecc_bounds (phi : R) :
  0 < sqrt (ecc_term K phi) <= 1 /\
  sqrt (ecc_term K phi) * sqrt (ecc_term K phi) = ecc_term K phi.
Proof.
  pose proof (ecc_term_pos K phi He1) as Ht.
  pose proof (ecc_term_bounds phi) as [_ Hhi].
  split; [split |].
  - apply sqrt_lt_R0, Ht.
  - rewrite <- sqrt_1. apply sqrt_le_1_alt, Hhi.
  - apply sqrt_sqrt. lra.
Qed.

Lemma le_div (a b c : R) : 0 < c -> a * c <= b -> a <= b / c.
Proof.
  intros Hc H. replace a with (a * c / c) by (field; lra).
  unfold Rdiv. apply Rmult_le_compat_r; [| exact H].
  apply Rlt_le, Rinv_0_lt_compat, Hc.
Qed.

Lemma div_le (a b c : R) : 0 < c -> b <= a * c -> b / c <= a.
Proof.
  intros Hc H. replace a with (a * c / c) by (field; lra).
  unfold Rdiv. apply Rmult_le_compat_r; [| exact H].
  apply Rlt_le, Rinv_0_lt_compat, Hc.
Qed.

Lemma transverse_radius_bounds (phi : R) :
  0 < WGS84_R0 K ->
  WGS84_R0 K <= transverse_radius K phi <= WGS84_R0 K / sqrt (1 - WGS84_E2 K).
Proof.
  intros HR. unfold transverse_radius.
  destruct (sqrt_ecc_bounds phi) as ((Ha0 & Ha1) & _).
  pose proof (ecc_term_bounds phi) as [Hlo _].
  assert (Hb0 : 0 < sqrt (1 - WGS84_E2 K)) by (apply sqrt_lt_R0; lra).
  assert (Hba : sqrt (1 - WGS84_E2 K) <= sqrt (ecc_term K phi))
    by (apply sqrt_le_1_alt, Hlo).
  split.
  - apply le_div; [exact Ha0 | nra].
  - unfold Rdiv. apply Rmult_le_compat_l; [lra |].
    apply Rinv_le_contravar; assumption.
Qed.

Lemma meridian_radius_bounds (phi : R) :
  0 < WGS84_R0 K ->
  WGS84_R0 K * (1 - WGS84_E2 K) <= meridian_radius K phi <= transverse_radius K phi.
Proof.
  intros HR. unfold meridian_radius, transverse_radius.
  pose proof (ecc_term_pos K phi He1) as Ht.
  rewrite three_halves_power by assumption.
  destruct (sqrt_ecc_bounds phi) as ((Ha0 & Ha1) & Hsq).
  pose proof (ecc_term_bounds phi) as [Hlo Hhi].
  set (t := ecc_term K phi) in *. set (a := sqrt t) in *.
  clearbody a t.
  assert (Hta : 0 < t * a) by nra.
  assert (Hta1 : t * a <= 1) by nra.
  assert (Hc : 0 <= WGS84_R0 K * (1 - WGS84_E2 K)) by nra.
  split.
  - apply le_div; [exact Hta |].
    rewrite <- (Rmult_1_r (WGS84_R0 K * (1 - WGS84_E2 K))) at 2.
    apply Rmult_le_compat_l; assumption.
  - apply div_le; [exact Hta |].
    replace (WGS84_R0 K / a * (t * a)) with (WGS84_R0 K * t) by (field; lra).
    apply Rmult_le_compat_l; lra.
Qed.

Lemma normal_gravity_lower_bound (phi : R) : 9.7803253359 <= normal_gravity K phi.
Proof.
  unfold normal_gravity.
  destruct (sqrt_ecc_bounds phi) as ((Ha0 & Ha1) & _).
  pose proof (SIN_bound phi) as [Hlo Hhi].
  assert (Hs : 0 <= sin phi * sin phi) by nra.
  set (a := sqrt (ecc_term K phi)) in *.
  assert (H1 : 1 <= (1 + 0.001931853 * (sin phi * sin phi)) / a)
    by (apply le_div; [exact Ha0 | nra]).
  nra.
Qed.

End Bounds.

(** X10.  For [0 <= e^2 < 1] and [R0 > 0], the radii stored by a step satisfy
    [R0 <= Re <= R0 / sqrt(1 - e^2)] and [R0 (1 - e^2) <= Rn <= Re]; above
    the altitude [-R0 (1 - e^2)] both [Rn + h] and [Re + h] are positive. *)
Theorem Mechanize_radii_bounds
    (K : Constants) (A : Attitude) (s : Strapdown) (wb fb : Vector3d) (dt : R) :
  reachable K A s -> 0 <= WGS84_E2 K < 1 -> 0 < WGS84_R0 K ->
  let s' := Mechanize K A s wb fb dt in
  WGS84_R0 K <= Re_ s' <= WGS84_R0 K / sqrt (1 - WGS84_E2 K) /\
  WGS84_R0 K * (1 - WGS84_E2 K) <= Rn_ s' <= Re_ s' /\
  (- (WGS84_R0 K * (1 - WGS84_E2 K)) < h_ s -> 0 < Hn_ s' /\ 0 < He_ s').
Proof.
  intros Hr [He0 He1] HR s'. subst s'.
  rewrite (reachable_step_result K A s wb fb dt Hr He1).
  unfold step_result. cbn [Re_ Rn_ Hn_ He_].
  pose proof (transverse_radius_bounds K He0 He1 (phi_ s) HR) as Ht.
  pose proof (meridian_radius_bounds K He0 He1 (phi_ s) HR) as Hm.
  split; [exact Ht | split; [exact Hm |]].
  intros Hh. split; lra.
Qed.

Lemma Mechanize_radii_bounds_witness :
  WGS84_R0 WGS84
  <= Re_ (Mechanize WGS84 textbook at_rest Zero3 (V3 0 0 (-9.7803253359)) 0.01)
  <= WGS84_R0 WGS84 / sqrt (1 - WGS84_E2 WGS84).
Proof.
  apply (Mechanize_radii_bounds WGS84 textbook at_rest Zero3 (V3 0 0 (-9.7803253359)) 0.01).
  - exact at_rest_reachable.
  - cbn [WGS84_E2 WGS84]. lra.
  - cbn [WGS84_R0 WGS84]. lra.
Defined.

(** X11.  The normal gravity stored by a step is at least its equatorial value
    [9.7803253359]; at zero altitude the gravity vector of the step is
    vertical and equal to the normal gravity. *)
Theorem Mechanize_normal_gravity
    (K : Constants) (A : Attitude) (s : Strapdown) (wb fb : Vector3d) (dt : R) :
  reachable K A s -> 0 <= WGS84_E2 K < 1 -> WGS84_R0 K <> 0 ->
  let s' := Mechanize K A s wb fb dt in
  g0_ s' = normal_gravity K (phi_ s) /\
  9.7803253359 <= g0_ s' /\
  (h_ s = 0 -> g_ s' = V3 0 0 (g0_ s')).
Proof.
  intros Hr [He0 He1] HR s'. subst s'.
  rewrite (reachable_step_result K A s wb fb dt Hr He1).
  unfold step_result. cbn [g0_ g_].
  split; [reflexivity | split; [apply normal_gravity_lower_bound; assumption |]].
  intros Hh. unfold gravity, gravity_correction. rewrite Hh.
  f_equal; unfold Rdiv; ring.
Qed.

Lemma Mechanize_normal_gravity_witness :
  9.7803253359
  <= g0_ (Mechanize WGS84 textbook at_rest Zero3 (V3 0 0 (-9.7803253359)) 0.01).
Proof.
  apply (Mechanize_normal_gravity WGS84 textbook at_rest Zero3 (V3 0 0 (-9.7803253359)) 0.01).
  - exact at_rest_reachable.
  - cbn [WGS84_E2 WGS84]. lra.
  - exact WGS84_R0_nz.
Defined.

(** X12.  The Earth-rate vector stored by a step has magnitude [|OMEGA|] at every
    latitude. *)
Theorem Mechanize_earth_rate_magnitude
    (K : Constants) (A : Attitude) (s : Strapdown) (wb fb : Vector3d) (dt : R) :
  reachable K A s -> WGS84_E2 K < 1 ->
  norm3 (w_ie_n_ (Mechanize K A s wb fb dt)) = Rabs (WGS84_OMEGA K).
Proof.
  intros Hr He.
  rewrite (reachable_step_result K A s wb fb dt Hr He).
  unfold step_result. cbn [w_ie_n_]. unfold norm3, earth_rate, dot3. cbn [x0 x1 x2].
  pose proof (sin2_cos2 (phi_ s)) as Hsc. unfold Rsqr in Hsc.
  replace (WGS84_OMEGA K * cos (phi_ s) * (WGS84_OMEGA K * cos (phi_ s)) + 0 * 0
           + WGS84_OMEGA K * sin (phi_ s) * (WGS84_OMEGA K * sin (phi_ s)))
    with (Rsqr (WGS84_OMEGA K)).
  - apply sqrt_Rsqr_abs.
  - unfold Rsqr.
    replace (WGS84_OMEGA K * WGS84_OMEGA K)
      with (WGS84_OMEGA K * WGS84_OMEGA K
            * (sin (phi_ s) * sin (phi_ s) + cos (phi_ s) * cos (phi_ s)))
      by (rewrite Hsc; ring).
    ring.
Qed.

Lemma Mechanize_earth_rate_magnitude_witness :
  norm3 (w_ie_n_ (Mechanize WGS84 textbook at_rest Zero3 (V3 0 0 (-9.7803253359)) 0.01))
  = Rabs (WGS84_OMEGA WGS84).
Proof.
  exact (Mechanize_earth_rate_magnitude WGS84 textbook at_rest Zero3
           (V3 0 0 (-9.7803253359)) 0.01 at_rest_reachable WGS84_E2_lt_1).
Defined.

(** ** Invariants of the public operations *)

(** X13.  Every object built by a constructor and changed only through the public
    operations keeps [X1ME2_ = 1 - e^2], the constant [wR0sqRpMu_] and zero
    east components of the gravity and Earth-rate vectors. *)
Theorem constructor_members_fixed (K : Constants) (A : Attitude) (s : Strapdown) :
  reachable K A s ->
  X1ME2_ s = 1 - WGS84_E2 K /\
  wR0sqRpMu_ s =
    WGS84_OMEGA K * WGS84_OMEGA K * WGS84_R0 K * WGS84_R0 K * WGS84_RP K / WGS84_MU K /\
  x1 (g_ s) = 0 /\
  x1 (w_ie_n_ s) = 0.
Proof. intros Hr. exact (reachable_ctor_inv K A s Hr). Qed.

Lemma constructor_members_fixed_witness :
  X1ME2_ (Mechanize WGS84 textbook (SetPosition at_rest 0.5 1 100)
            (V3 0 0 0.1) (V3 0 0 (-9.7803253359)) 0.01)
  = 1 - WGS84_E2 WGS84.
Proof.
  exact (proj1 (constructor_members_fixed WGS84 textbook _
    (reach_Mechanize WGS84 textbook _ _ _ _
       (reach_SetPosition WGS84 textbook _ _ _ _ at_rest_reachable)))).
Defined.

(** X14.  Once the attitude has been set, the stored matrix is [quat2dcm] of the
    stored quaternion after every sequence of [SetPosition], [SetVelocity],
    [SetAttitude(roll, pitch, yaw)] and [Mechanize]. *)
Theorem attitude_pair_consistent (K : Constants) (A : Attitude) (s : Strapdown) :
  attitude_defined K A s -> C_b_l_ s = quat2dcm A (q_b_l_ s).
Proof.
  induction 1 as [raw | s | s | s lat lon alt Hs IH | s vn ve vd Hs IH].
  - destruct raw. run_code. reflexivity.
  - destruct s. run_code. reflexivity.
  - apply Mechanize_C.
  - destruct s. cbn [C_b_l_ q_b_l_] in IH. run_code. exact IH.
  - destruct s. cbn [C_b_l_ q_b_l_] in IH. run_code. exact IH.
Qed.

Lemma attitude_pair_consistent_witness :
  C_b_l_ (SetVelocity (SetPosition (SetAttitude textbook attitude_unset 0.1 0.2 0.3) 0.5 1 100)
            1 2 3)
  = quat2dcm textbook
      (q_b_l_ (SetVelocity
                 (SetPosition (SetAttitude textbook attitude_unset 0.1 0.2 0.3) 0.5 1 100)
                 1 2 3)).
Proof.
  apply (attitude_pair_consistent WGS84 textbook).
  apply ad_SetVelocity, ad_SetPosition, ad_SetAttitude.
Defined.

(** X15.  The 9-argument constructor builds the object that the default
    constructor followed by [SetPosition], [SetVelocity] and
    [SetAttitude(roll, pitch, yaw)] builds in the same storage. *)
Theorem Strapdown_init_as_setters
    (K : Constants) (A : Attitude) (raw : Strapdown)
    (lat lon alt veln vele veld roll pitch yaw : R) :
  Strapdown_init K A raw lat lon alt veln vele veld roll pitch yaw
  = SetAttitude A
      (SetVelocity (SetPosition (Strapdown_default K raw) lat lon alt) veln vele veld)
      roll pitch yaw.
Proof. destruct raw. run_code. reflexivity. Qed.

(** X16.  The attitude update of a step does not read the specific force, and its
    position and velocity updates do not read the angular rate. *)
Theorem Mechanize_decoupled
    (K : Constants) (A : Attitude) (s : Strapdown) (wb wb' fb fb' : Vector3d) (dt : R) :
  q_b_l_ (Mechanize K A s wb fb dt) = q_b_l_ (Mechanize K A s wb fb' dt) /\
  C_b_l_ (Mechanize K A s wb fb dt) = C_b_l_ (Mechanize K A s wb fb' dt) /\
  set_C_b_l_ (set_q_b_l_ (Mechanize K A s wb fb dt) (q_b_l_ s)) (C_b_l_ s)
  = set_C_b_l_ (set_q_b_l_ (Mechanize K A s wb' fb dt) (q_b_l_ s)) (C_b_l_ s).
Proof. destruct s. run_code. repeat split. Qed.

End StrapdownMore.

(** * Further properties of the simulation driver *)

Module SimDriverMore.
Import test_sim_ins SimDriverProofs.
Local Open Scope Z_scope.

(** X17.  The guard [~(i % 20)] is false exactly when [i % 20] is [-1], which
    needs a negative counter: [-1], [-21], [-41], ... *)
Theorem gnss_guard_false_iff (i : Z) :
  (gnss_guard i = false <-> int_rem i 20 = -1) /\
  (gnss_guard i = false <-> exists k : Z, 0 <= k /\ i = -1 - 20 * k).
Proof.
  assert (H1 : gnss_guard i = false <-> int_rem i 20 = -1).
  { unfold gnss_guard, truthy. rewrite negb_false_iff, Z.eqb_eq. apply int_not_zero. }
  split; [exact H1 |].
  rewrite H1. unfold int_rem. split.
  - intros Hr.
    assert (Hi : i < 0).
    { destruct (Z_lt_le_dec i 0) as [Hlt | Hge]; [exact Hlt |].
      pose proof (Z.rem_nonneg i 20 ltac:(lia) Hge). lia. }
    pose proof (Z.rem_opp_l' i 20) as Ho.
    assert (Hm : Z.rem (- i) 20 = 1) by lia.
    rewrite Z.rem_mod_nonneg in Hm by lia.
    exists ((- i) / 20). split.
    + apply Z.div_pos; lia.
    + pose proof (Z.div_mod (- i) 20 ltac:(lia)). lia.
  - intros (k & Hk & ->).
    replace (-1 - 20 * k) with (- (1 + k * 20)) by lia.
    rewrite Z.rem_opp_l', Z.rem_mod_nonneg by lia.
    rewrite Z.mod_add by lia. reflexivity.
Qed.

Lemma main_loop_no_initialize (records : nat) (i : Z) :
  0 < i -> calls Initialize (main_loop records i) = 0%nat.
Proof.
  revert i. induction records as [| rest IH]; intros i Hi.
  - reflexivity.
  - cbn [main_loop]. rewrite calls_app, iteration_nonneg by lia.
    rewrite IH by lia.
    destruct (i =? 0) eqn:E; [apply Z.eqb_eq in E; lia | reflexivity].
Qed.

Lemma main_loop_step_calls (c : call) (records : nat) (i : Z) :
  In c [ImuModel; ClockModel; Mechanize; Propagate] ->
  0 <= i -> calls c (main_loop records i) = records.
Proof.
  intros Hc. revert i. induction records as [| rest IH]; intros i Hi.
  - reflexivity.
  - cbn [main_loop]. rewrite calls_app, iteration_nonneg by lia.
    rewrite IH by lia.
    cbn [In] in Hc.
    destruct Hc as [<- | [<- | [<- | [<- | []]]]]; destruct (i =? 0); reflexivity.
Qed.

(** X18.  A run initialises the filter once, at the first record, and not at all
    on an empty input; it calls the two sensor models, [Mechanize] and
    [Propagate] once per record. *)
Theorem main_initializes_once (records : nat) :
  calls Initialize (main records) = Nat.min 1 records /\
  calls ImuModel (main records) = records /\
  calls ClockModel (main records) = records /\
  calls Mechanize (main records) = records /\
  calls Propagate (main records) = records.
Proof.
  split.
  - unfold main. destruct records as [| rest]; [reflexivity |].
    cbn [main_loop]. rewrite calls_app, iteration_nonneg by lia.
    rewrite main_loop_no_initialize by lia. destruct rest; reflexivity.
  - unfold main. repeat split; apply main_loop_step_calls; cbn; auto with zarith.
Qed.

End SimDriverMore.
